(** * A shallow embedding of the SB 988 simulation engine

    Sources: [src/sb988_simulator/src/core/entities.py] and
    [src/sb988_simulator/src/core/simulation_engine.py].

    Representation choices:
    - Python [datetime] values are integers counting microseconds since
      0001-01-01T00:00 (the resolution of [timedelta]); [date] values are
      Python's proleptic Gregorian ordinals ([date.toordinal()]).
    - [Decimal] values are rationals [Q] (a finite [Decimal] is a rational).
    - Python [float] and numpy [float64] values are Rocq's primitive binary64
      floats ([float]), so the model rounds exactly as the program does:
      [int / int] and [float(Decimal)] are correctly rounded, and [np.mean]
      and [np.var] follow numpy's pairwise summation.
    - A Python [dict] is an association list in insertion order (iteration
      order matters for the engine), keys assumed distinct as in a dict.
    - Python exceptions are strings; a call that raises returns the state it
      had already mutated together with the exception, and the engine keeps
      those mutations (no rollback), as Python does.
    - The process-global [np.random] state is threaded through the engine as
      the field [rng]. *)

From Stdlib Require Import ZArith QArith String List Bool Lia Floats.
Import ListNotations.
Open Scope Z_scope.
#[local] Set Warnings "-inexact-float".

(* ------------------------------------------------------------------ *)
(** ** Dates and times (Python's [datetime] module) *)

Definition US_PER_DAY : Z := 86400 * 1000000.

Definition datetime := Z.
Definition date := Z.
Definition timedelta := Z.

Definition _is_leap (year : Z) : bool :=
  (year mod 4 =? 0) && (negb (year mod 100 =? 0) || (year mod 400 =? 0)).

Definition _DAYS_BEFORE_MONTH (month : Z) : Z :=
  match month with
  | 1 => 0 | 2 => 31 | 3 => 59 | 4 => 90 | 5 => 120 | 6 => 151
  | 7 => 181 | 8 => 212 | 9 => 243 | 10 => 273 | 11 => 304 | 12 => 334
  | _ => 0
  end.

Definition _days_before_year (year : Z) : Z :=
  let y := year - 1 in y * 365 + y / 4 - y / 100 + y / 400.

Definition _days_before_month (year month : Z) : Z :=
  _DAYS_BEFORE_MONTH month + (if (month >? 2) && _is_leap year then 1 else 0).

Definition _ymd2ord (year month day : Z) : date :=
  _days_before_year year + _days_before_month year month + day.

(** [datetime(year, month, day)] at midnight. *)
Definition mk_datetime (year month day : Z) : datetime :=
  (_ymd2ord year month day - 1) * US_PER_DAY.

(** [dt.date()], as an ordinal. *)
Definition date_of (t : datetime) : date := t / US_PER_DAY + 1.

Definition timedelta_days (n : Z) : timedelta := n * US_PER_DAY.

(** [datetime.min] and [datetime.max]: years 1 to 9999. *)
Definition datetime_min : datetime := 0.
Definition datetime_max : datetime := mk_datetime 9999 12 31 + US_PER_DAY - 1.

(** [t + d]: [OverflowError] when the result leaves the range of [datetime]. *)
Definition datetime_add (t : datetime) (d : timedelta) : string + datetime :=
  if (datetime_min <=? t + d) && (t + d <=? datetime_max) then inr (t + d)
  else inl "OverflowError"%string.

(* ------------------------------------------------------------------ *)
(** ** Entities ([entities.py]) *)

Inductive FreelancerType :=
| INDEPENDENT_CONTRACTOR | GIG_WORKER | CONSULTANT
| CREATIVE_PROFESSIONAL | TECHNICAL_SPECIALIST.

Inductive ClientType :=
| SMALL_BUSINESS | MEDIUM_ENTERPRISE | LARGE_CORPORATION
| STARTUP | NON_PROFIT | GOVERNMENT.

Inductive ContractStatus :=
| DRAFT | NEGOTIATING | ACTIVE | COMPLETED | TERMINATED | DISPUTED.

(** [ContractStatus.value] *)
Definition ContractStatus_value (s : ContractStatus) : string :=
  match s with
  | DRAFT => "draft" | NEGOTIATING => "negotiating" | ACTIVE => "active"
  | COMPLETED => "completed" | TERMINATED => "terminated"
  | DISPUTED => "disputed"
  end.

Inductive ComplianceStatus :=
| C_COMPLIANT | C_NON_COMPLIANT | C_PENDING_REVIEW | C_DISPUTED.

(** [ComplianceStatus.value] *)
Definition ComplianceStatus_value (s : ComplianceStatus) : string :=
  match s with
  | C_COMPLIANT => "compliant" | C_NON_COMPLIANT => "non_compliant"
  | C_PENDING_REVIEW => "pending_review" | C_DISPUTED => "disputed"
  end.

Record Freelancer := mkFreelancer {
  f_id : string;
  f_name : string;
  freelancer_type : FreelancerType;
  skills : list string;
  experience_years : float;
  hourly_rate : Q;
  f_location : string;
  f_created_at : datetime;
  sb988_aware : bool;
  compliance_preference : string;
  administrative_capacity : float;
  annual_income : option Q;
  primary_client_dependency : float;
  risk_tolerance : float;
  negotiation_skill : float;
  market_knowledge : float
}.

Record Client := mkClient {
  c_id : string;
  c_name : string;
  client_type : ClientType;
  industry : string;
  size : string;
  c_location : string;
  c_created_at : datetime;
  annual_revenue : option Q;
  freelancer_spend_budget : option Q;
  sb988_awareness : float;
  compliance_priority : string;
  legal_resources : float;
  risk_aversion : float;
  negotiation_power : float;
  market_influence : float
}.

(** A milestone is a [Dict[str, Any]]; its values are kept as strings. *)
Definition Milestone := list (string * string).

Record Contract := mkContract {
  k_id : string;
  k_freelancer_id : string;
  k_client_id : string;
  title : string;
  description : string;
  status : ContractStatus;
  k_created_at : datetime;
  start_date : option date;
  end_date : option date;
  total_value : Q;
  payment_terms : string;
  currency : string;
  estimated_hours : option float;
  actual_hours : option float;
  deliverables : list string;
  milestones : list Milestone;
  sb988_compliant : ComplianceStatus;
  compliance_score : float;
  compliance_requirements : list string;
  administrative_burden_score : float;
  exclusivity_clause : bool;
  location_requirements : option string;
  equipment_provided : bool;
  supervision_level : string
}.

Record Transaction := mkTransaction {
  t_id : string;
  t_contract_id : string;
  t_freelancer_id : string;
  t_client_id : string;
  amount : Q;
  transaction_date : datetime;
  payment_method : string;
  t_status : string;
  compliance_costs : Q;
  administrative_overhead : Q;
  dispute_costs : Q;
  t_description : option string;
  reference_number : option string
}.

Record MarketSnapshot := mkMarketSnapshot {
  timestamp : datetime;
  total_freelancers : nat;
  total_clients : nat;
  active_contracts : nat;
  total_transaction_volume : Q;
  average_hourly_rate : float;
  compliance_rate : float;
  market_demand : float;
  regulatory_pressure : float;
  economic_uncertainty : float
}.

(** The [__post_init__] methods.  [fresh] stands for the [str(uuid.uuid4())]
    the method would draw; [not self.id] holds of the empty id. *)
Definition Freelancer___post_init__ (fresh : string) (f : Freelancer) : Freelancer :=
  if String.eqb (f_id f) "" then
    mkFreelancer fresh (f_name f) (freelancer_type f) (skills f)
      (experience_years f) (hourly_rate f) (f_location f) (f_created_at f)
      (sb988_aware f) (compliance_preference f) (administrative_capacity f)
      (annual_income f) (primary_client_dependency f) (risk_tolerance f)
      (negotiation_skill f) (market_knowledge f)
  else f.

Definition Client___post_init__ (fresh : string) (c : Client) : Client :=
  if String.eqb (c_id c) "" then
    mkClient fresh (c_name c) (client_type c) (industry c) (size c)
      (c_location c) (c_created_at c) (annual_revenue c)
      (freelancer_spend_budget c) (sb988_awareness c) (compliance_priority c)
      (legal_resources c) (risk_aversion c) (negotiation_power c)
      (market_influence c)
  else c.

(** [Contract.__post_init__]; the three list fields are given as the
    constructor received them, [None] when left to their default. *)
Definition Contract___post_init__ (fresh : string) (c : Contract)
    (deliverables0 : option (list string)) (milestones0 : option (list Milestone))
    (compliance_requirements0 : option (list string)) : Contract :=
  mkContract (if String.eqb (k_id c) "" then fresh else k_id c)
    (k_freelancer_id c) (k_client_id c) (title c) (description c) (status c)
    (k_created_at c) (start_date c) (end_date c) (total_value c)
    (payment_terms c) (currency c) (estimated_hours c) (actual_hours c)
    (match deliverables0 with None => [] | Some l => l end)
    (match milestones0 with None => [] | Some l => l end)
    (sb988_compliant c) (compliance_score c)
    (match compliance_requirements0 with None => [] | Some l => l end)
    (administrative_burden_score c) (exclusivity_clause c)
    (location_requirements c) (equipment_provided c) (supervision_level c).

Definition Transaction___post_init__ (fresh : string) (t : Transaction) : Transaction :=
  if String.eqb (t_id t) "" then
    mkTransaction fresh (t_contract_id t) (t_freelancer_id t) (t_client_id t)
      (amount t) (transaction_date t) (payment_method t) (t_status t)
      (compliance_costs t) (administrative_overhead t) (dispute_costs t)
      (t_description t) (reference_number t)
  else t.

(* ------------------------------------------------------------------ *)
(** ** Dictionaries, sums and means *)

(** A Python [dict] in insertion order. *)
Definition dict (V : Type) := list (string * V).

(** [d.values()] *)
Definition values {V} (d : dict V) : list V := map snd d.

(** Replace the value at position [i], keeping its key (an in-place
    mutation of the object stored there). *)
Fixpoint update_nth {V} (i : nat) (v : V) (d : dict V) : dict V :=
  match d, i with
  | [], _ => []
  | (k, _) :: d', O => (k, v) :: d'
  | kv :: d', S i' => kv :: update_nth i' v d'
  end.

(** The objects of [list(d.values())] handed to a callee, in the state the
    callee left them: the value at each position is replaced by the one the
    callee reports for that position. *)
Fixpoint write_back {V} (d : dict V) (vs : list V) : dict V :=
  match d, vs with
  | (k, _) :: d', v :: vs' => (k, v) :: write_back d' vs'
  | _, _ => d
  end.

(** Python's [sum], left to right from [0]. *)
Definition sum_Q (l : list Q) : Q := fold_left Qplus l 0%Q.

(** A Python [int] as an exact binary value (mantissa, exponent 0). *)
Definition sf_of_Z (z : Z) : spec_float :=
  match z with
  | Z0 => S754_zero false
  | Zpos p => S754_finite false p 0
  | Zneg p => S754_finite true p 0
  end.

(** Python's true division [a / b] of two [int]s: the correctly rounded
    quotient (CPython divides the exactly converted operands in floating point
    when both fit in 53 bits and performs a correctly rounded long division
    otherwise); [ZeroDivisionError] when [b = 0] and [OverflowError] when the
    quotient lies beyond the float range. *)
Definition int_truediv (a b : Z) : string + float :=
  if b =? 0 then inl "ZeroDivisionError"%string
  else match SF64div (sf_of_Z a) (sf_of_Z b) with
       | S754_infinity _ => inl "OverflowError"%string
       | q => inr (SF2Prim q)
       end.

(** [float(d)] for a finite [Decimal] [d]: [float(str(d))], the correctly
    rounded value (infinite beyond the float range). *)
Definition Decimal___float__ (d : Q) : float :=
  SF2Prim (SF64div (sf_of_Z (Qnum d)) (sf_of_Z (Zpos (Qden d)))).

(** numpy's [pairwise_sum] of a contiguous [float64] array: fewer than 8
    elements are added in order from [-0.0]; up to 128 elements go to eight
    accumulators, eight at a time, which are combined pairwise before the
    remaining elements are added in order; a longer array is split at
    [n2 = n / 2 - (n / 2) % 8] and the two halves are summed recursively. *)
Fixpoint seq_sum (res : float) (l : list float) : float :=
  match l with
  | [] => res
  | x :: l' => seq_sum (res + x)%float l'
  end.

Fixpoint add8 (r a : list float) : list float :=
  match r, a with
  | x :: r', y :: a' => (x + y)%float :: add8 r' a'
  | _, _ => r
  end.

(** The accumulator loop [for (i = 8; i < n - (n % 8); i += 8)]. *)
Fixpoint blocks (fuel : nat) (r a : list float) : list float * list float :=
  match fuel with
  | O => (r, a)
  | S f =>
      if (8 <=? List.length a)%nat
      then blocks f (add8 r (firstn 8 a)) (skipn 8 a)
      else (r, a)
  end.

(** [fuel] bounds the depth of the recursion; [length a] always suffices. *)
Fixpoint pairwise_sum (fuel : nat) (a : list float) : float :=
  let n := List.length a in
  if (n <? 8)%nat then seq_sum (-0)%float a
  else if (n <=? 128)%nat then
    let '(r, rest) := blocks n (firstn 8 a) (skipn 8 a) in
    match r with
    | [r0; r1; r2; r3; r4; r5; r6; r7] =>
        seq_sum (((r0 + r1) + (r2 + r3)) + ((r4 + r5) + (r6 + r7)))%float rest
    | _ => nan
    end
  else
    match fuel with
    | O => nan
    | S f =>
        let n2 := (n / 2 - (n / 2) mod 8)%nat in
        (pairwise_sum f (firstn n2 a) + pairwise_sum f (skipn n2 a))%float
    end.

(** [np.add.reduce]: the identity [0.0] plus the pairwise sum. *)
Definition umr_sum (a : list float) : float :=
  (0 + pairwise_sum (List.length a) a)%float.

(** The element count as a [float64]. *)
Definition float_of_nat (n : nat) : float :=
  of_uint63 (Uint63.of_Z (Z.of_nat n)).

(** [np.mean]: the sum divided by the count. *)
Definition np_mean (a : list float) : float :=
  (umr_sum a / float_of_nat (List.length a))%float.

(** [np.var] (ddof = 0): the mean is computed first, then the sum of the
    squared deviations is divided by the count. *)
Definition np_var (a : list float) : float :=
  let m := np_mean a in
  (umr_sum (map (fun x => (x - m) * (x - m))%float a)
     / float_of_nat (List.length a))%float.

(* ------------------------------------------------------------------ *)
(** ** Configuration and engine state ([simulation_engine.py]) *)

Record SimulationConfig := mkSimulationConfig {
  cfg_start_date : datetime;
  cfg_end_date : datetime;
  time_step : timedelta;
  initial_freelancers : Z;
  initial_clients : Z;
  market_volatility : float;
  regulatory_enforcement_level : float;
  agent_interaction_probability : float;
  contract_formation_rate : float;
  base_hourly_rate : float;
  inflation_rate : float;
  sb988_enforcement_date : option datetime;
  compliance_grace_period : Z;
  random_seed : option Z;
  max_iterations : Z;
  convergence_threshold : float
}.

(** [SimulationConfig(start_date, end_date)] with every default. *)
Definition default_config (start end_ : datetime) : SimulationConfig :=
  mkSimulationConfig start end_ (timedelta_days 1) 1000 500
    0.1 0.5 0.1 0.05 50.0 0.03
    None 90 None 10000 0.001.

(** A Python exception. *)
Definition Exn := string.

(** The result of calling an injected callable: the state it can reach, as
    the call left it, and the exception it raised, if any. *)
Definition Outcome (A : Type) := (A * option Exn)%type.

(** The process-global state of [np.random]. *)
Definition RNG := Z.

(** [np.random.seed(s)]: the generator state is a function of the seed only;
    an integer seed outside [0 .. 2**32 - 1] raises [ValueError]. *)
Definition np_random_seed (s : Z) : Exn + RNG :=
  if (0 <=? s) && (s <? 2 ^ 32) then inr s else inl "ValueError"%string.

(** [market_dynamics_model(freelancers=, clients=, contracts=,
    current_time=)]; its return value is never used by the engine. *)
Definition MarketDynamicsModel :=
  dict Freelancer -> dict Client -> dict Contract -> datetime -> RNG ->
  Outcome (dict Freelancer * dict Client * dict Contract * RNG).

(** [freelancer_behavior_model(freelancer=, market_state=,
    available_clients=, current_time=)]: it may mutate the freelancer, the
    snapshot object and the client objects it is given. *)
Definition FreelancerBehaviorModel :=
  Freelancer -> option MarketSnapshot -> list Client -> datetime -> RNG ->
  Outcome (Freelancer * option MarketSnapshot * list Client * RNG).

(** [client_behavior_model(client=, market_state=, available_freelancers=,
    current_time=)] *)
Definition ClientBehaviorModel :=
  Client -> option MarketSnapshot -> list Freelancer -> datetime -> RNG ->
  Outcome (Client * option MarketSnapshot * list Freelancer * RNG).

(** The [Scenario] interface ([scenario.py] is imported by the engine but
    its classes are user extensions): [is_active(time)], [apply(...)] and
    [get_results()], which returns a summary or raises. *)
Record Scenario := mkScenario {
  is_active : datetime -> Outcome bool;
  apply : dict Freelancer -> dict Client -> dict Contract -> datetime -> RNG ->
          Outcome (dict Freelancer * dict Client * dict Contract * RNG);
  get_results : Exn + list (string * string)
}.

(** Modelled from the spec: the [MetricsCollector] of [metrics.py], which the
    engine imports and constructs but whose code is not available.  Per the
    spec (4.4) [collect_step_metrics] observes the full entity and transaction
    state and the time, accumulates it, and mutates no entity; it may raise.
    The accumulated history is the most general accumulator: any summary is a
    function of it.  [get_summary] returns it or raises (spec 7: a failing
    metrics collector propagates). *)
Record MetricsCollector := mkMetricsCollector {
  mc_raises : dict Freelancer -> dict Client -> dict Contract ->
              list Transaction -> datetime -> option Exn;
  mc_history : list (dict Freelancer * dict Client * dict Contract *
                     list Transaction * datetime);
  mc_summary_raises : option Exn
}.

(** Modelled from the spec: [MetricsCollector()], a collector that records
    every step and does not raise. *)
Definition MetricsCollector_new : MetricsCollector :=
  mkMetricsCollector (fun _ _ _ _ _ => None) [] None.

(** [get_summary()] *)
Definition get_summary (mc : MetricsCollector) :
    Exn + list (dict Freelancer * dict Client * dict Contract *
                list Transaction * datetime) :=
  match mc_summary_raises mc with
  | Some x => inl x
  | None => inr (mc_history mc)
  end.

(** Ghost trace of the calls a step makes, in the order it makes them. *)
Inductive Event :=
| EvInitializePopulation
| EvMarketDynamics
| EvSnapshot
| EvFreelancerBehavior (id : string) (market_state : option nat)
| EvClientBehavior (id : string) (market_state : option nat)
| EvProcessContracts
| EvScenario (index : nat)
| EvMetrics
| EvAdvance.

Record Engine := mkEngine {
  config : SimulationConfig;
  current_time : datetime;
  freelancers : dict Freelancer;
  clients : dict Client;
  contracts : dict Contract;
  transactions : list Transaction;
  market_snapshots : list MarketSnapshot;
  metrics_collector : MetricsCollector;
  scenarios : list Scenario;
  freelancer_behavior_model : option FreelancerBehaviorModel;
  client_behavior_model : option ClientBehaviorModel;
  market_dynamics_model : option MarketDynamicsModel;
  rng : RNG;
  trace : list Event
}.

(** Field updates of the engine. *)
Definition set_reach (e : Engine) fs cs ks g : Engine :=
  mkEngine (config e) (current_time e) fs cs ks (transactions e)
    (market_snapshots e) (metrics_collector e) (scenarios e)
    (freelancer_behavior_model e) (client_behavior_model e)
    (market_dynamics_model e) g (trace e).

Definition set_market_snapshots (e : Engine) s : Engine :=
  mkEngine (config e) (current_time e) (freelancers e) (clients e)
    (contracts e) (transactions e) s (metrics_collector e) (scenarios e)
    (freelancer_behavior_model e) (client_behavior_model e)
    (market_dynamics_model e) (rng e) (trace e).

Definition set_metrics_collector (e : Engine) mc : Engine :=
  mkEngine (config e) (current_time e) (freelancers e) (clients e)
    (contracts e) (transactions e) (market_snapshots e) mc (scenarios e)
    (freelancer_behavior_model e) (client_behavior_model e)
    (market_dynamics_model e) (rng e) (trace e).

Definition set_current_time (e : Engine) t : Engine :=
  mkEngine (config e) t (freelancers e) (clients e)
    (contracts e) (transactions e) (market_snapshots e)
    (metrics_collector e) (scenarios e)
    (freelancer_behavior_model e) (client_behavior_model e)
    (market_dynamics_model e) (rng e) (trace e).

Definition set_strategies (e : Engine) scs fb cb mdm : Engine :=
  mkEngine (config e) (current_time e) (freelancers e) (clients e)
    (contracts e) (transactions e) (market_snapshots e)
    (metrics_collector e) scs fb cb mdm (rng e) (trace e).

Definition emit (e : Engine) (ev : Event) : Engine :=
  mkEngine (config e) (current_time e) (freelancers e) (clients e)
    (contracts e) (transactions e) (market_snapshots e)
    (metrics_collector e) (scenarios e)
    (freelancer_behavior_model e) (client_behavior_model e)
    (market_dynamics_model e) (rng e) (trace e ++ [ev]).

(** [contract.status = s] *)
Definition set_status (c : Contract) (s : ContractStatus) : Contract :=
  mkContract (k_id c) (k_freelancer_id c) (k_client_id c) (title c)
    (description c) s (k_created_at c) (start_date c) (end_date c)
    (total_value c) (payment_terms c) (currency c) (estimated_hours c)
    (actual_hours c) (deliverables c) (milestones c) (sb988_compliant c)
    (compliance_score c) (compliance_requirements c)
    (administrative_burden_score c) (exclusivity_clause c)
    (location_requirements c) (equipment_provided c) (supervision_level c).

(* ------------------------------------------------------------------ *)
(** ** The engine's monad: state with exceptions that keep the state *)

Definition M (A : Type) := Engine -> Engine * (Exn + A).

Definition ret {A} (a : A) : M A := fun e => (e, inr a).

Definition bind {A B} (m : M A) (k : A -> M B) : M B :=
  fun e => match m e with
           | (e', inl x) => (e', inl x)
           | (e', inr a) => k a e'
           end.

Definition get : M Engine := fun e => (e, inr e).
Definition modify (f : Engine -> Engine) : M unit := fun e => (f e, inr tt).
Definition raise {A} (x : Exn) : M A := fun e => (e, inl x).

Notation "x <- c1 ;; c2" := (bind c1 (fun x => c2))
  (at level 61, c1 at next level, right associativity).
Notation "c1 ;; c2" := (bind c1 (fun _ => c2)) (at level 61, right associativity).

(** A value, or the exception computing it raised. *)
Definition lift_exn {A} (r : Exn + A) : M A := fun e => (e, r).

(** Re-raise the exception a callee raised, if any. *)
Definition reraise (err : option Exn) : M unit :=
  match err with None => ret tt | Some x => raise x end.

(** A [for] loop. *)
Fixpoint for_each {A} (l : list A) (body : A -> M unit) : M unit :=
  match l with
  | [] => ret tt
  | a :: l' => body a ;; for_each l' body
  end.

(* ------------------------------------------------------------------ *)
(** ** Construction and set-up *)

(** Python truthiness of [config.random_seed] ([None] and [0] are false). *)
Definition seed_truthy (s : option Z) : bool :=
  match s with Some n => negb (n =? 0) | None => false end.

(** The attributes [SimulationEngine(config)] sets before seeding, with [g]
    the state [np.random] has when the engine is constructed. *)
Definition SimulationEngine_fields (cfg : SimulationConfig) (g : RNG) : Engine :=
  mkEngine cfg (cfg_start_date cfg) [] [] [] [] [] MetricsCollector_new []
    None None None g [].

(** [SimulationEngine(config)]: [np.random.seed(config.random_seed)] when the
    seed is truthy, which raises for a seed out of range. *)
Definition SimulationEngine_new (cfg : SimulationConfig) (g : RNG) : Exn + Engine :=
  let e := SimulationEngine_fields cfg g in
  match random_seed cfg with
  | Some s =>
      if seed_truthy (random_seed cfg) then
        match np_random_seed s with
        | inl x => inl x
        | inr g' => inr (set_reach e [] [] [] g')
        end
      else inr e
  | None => inr e
  end.

(** [add_scenario] *)
Definition add_scenario (sc : Scenario) (e : Engine) : Engine :=
  set_strategies e (scenarios e ++ [sc]) (freelancer_behavior_model e)
    (client_behavior_model e) (market_dynamics_model e).

(** [set_behavioral_models]: a model is installed when it is given. *)
Definition set_behavioral_models (fm : option FreelancerBehaviorModel)
    (cm : option ClientBehaviorModel) (mm : option MarketDynamicsModel)
    (e : Engine) : Engine :=
  set_strategies e (scenarios e)
    (match fm with Some _ => fm | None => freelancer_behavior_model e end)
    (match cm with Some _ => cm | None => client_behavior_model e end)
    (match mm with Some _ => mm | None => market_dynamics_model e end).

(** [initialize_population]: a placeholder ([pass]). *)
Definition initialize_population : M unit :=
  modify (fun e => emit e EvInitializePopulation).

(* ------------------------------------------------------------------ *)
(** ** One step *)

(** [_calculate_average_hourly_rate] *)
Definition _calculate_average_hourly_rate (e : Engine) : float :=
  match freelancers e with
  | [] => 0.0
  | _ =>
      let rates := map (fun f => Decimal___float__ (hourly_rate f))
                     (values (freelancers e)) in
      np_mean rates
  end.

(** [_calculate_compliance_rate] *)
Definition _calculate_compliance_rate (e : Engine) : Exn + float :=
  match contracts e with
  | [] => inr 0.0%float
  | _ =>
      let compliant_contracts :=
        List.length (filter (fun c => String.eqb
                       (ComplianceStatus_value (sb988_compliant c)) "compliant")
                       (values (contracts e))) in
      int_truediv (Z.of_nat compliant_contracts)
        (Z.of_nat (List.length (contracts e)))
  end.

(** [sum(t.amount for t in self.transactions
         if t.transaction_date.date() == self.current_time.date())] *)
Definition transaction_volume (e : Engine) : Q :=
  sum_Q (map amount
    (filter (fun t => date_of (transaction_date t) =? date_of (current_time e))
       (transactions e))).

(** The [MarketSnapshot(...)] built in [_update_market_conditions]; its
    arguments are evaluated in order, and only the compliance rate can
    raise. *)
Definition make_snapshot (e : Engine) : Exn + MarketSnapshot :=
  match _calculate_compliance_rate e with
  | inl x => inl x
  | inr cr =>
      inr (mkMarketSnapshot
             (current_time e)
             (List.length (freelancers e))
             (List.length (clients e))
             (List.length (filter (fun c => String.eqb (ContractStatus_value (status c))
                                               "active")
                            (values (contracts e))))
             (transaction_volume e)
             (_calculate_average_hourly_rate e)
             cr
             0.5 0.5 0.5)
  end.

(** Calling [self.market_dynamics_model(...)]. *)
Definition call_market_dynamics (mdm : MarketDynamicsModel) : M unit :=
  fun e =>
    let e := emit e EvMarketDynamics in
    let '((fs, cs, ks, g), err) :=
      mdm (freelancers e) (clients e) (contracts e) (current_time e) (rng e) in
    reraise err (set_reach e fs cs ks g).

(** Phase 1: [_update_market_conditions] *)
Definition _update_market_conditions : M unit :=
  e <- get;;
  (match market_dynamics_model e with
   | Some mdm => call_market_dynamics mdm
   | None => ret tt
   end);;
  e <- get;;
  snapshot <- lift_exn (make_snapshot e);;
  modify (fun e =>
    emit (set_market_snapshots e (market_snapshots e ++ [snapshot]))
      EvSnapshot).

(** [self.market_snapshots[-1] if self.market_snapshots else None], as the
    position of the object passed ... *)
Definition last_ref (snaps : list MarketSnapshot) : option nat :=
  match snaps with [] => None | _ => Some (List.length snaps - 1)%nat end.

(** ... and as the object itself. *)
Definition market_state (snaps : list MarketSnapshot) : option MarketSnapshot :=
  match snaps with [] => None | s :: snaps' => Some (last snaps' s) end.

(** The snapshot object passed as [market_state], in the state the callee left
    it, is the last element of the snapshot list. *)
Definition write_back_market_state (snaps : list MarketSnapshot)
    (ms : option MarketSnapshot) : list MarketSnapshot :=
  match snaps, ms with
  | _ :: _, Some s => removelast snaps ++ [s]
  | _, _ => snaps
  end.

(** One call of [self.freelancer_behavior_model(...)] on the freelancer at
    position [i] of [self.freelancers]. *)
Definition freelancer_call (fb : FreelancerBehaviorModel) (i : nat) : M unit :=
  fun e =>
    match nth_error (freelancers e) i with
    | None => (e, inr tt)
    | Some (k, f) =>
        let e := emit e (EvFreelancerBehavior k (last_ref (market_snapshots e))) in
        let '((f', ms', cls', g'), err) :=
          fb f (market_state (market_snapshots e)) (values (clients e))
             (current_time e) (rng e) in
        let e := set_reach e (update_nth i f' (freelancers e))
                   (write_back (clients e) cls') (contracts e) g' in
        let e := set_market_snapshots e
                   (write_back_market_state (market_snapshots e) ms') in
        reraise err e
    end.

(** One call of [self.client_behavior_model(...)] on the client at position
    [i] of [self.clients]. *)
Definition client_call (cb : ClientBehaviorModel) (i : nat) : M unit :=
  fun e =>
    match nth_error (clients e) i with
    | None => (e, inr tt)
    | Some (k, c) =>
        let e := emit e (EvClientBehavior k (last_ref (market_snapshots e))) in
        let '((c', ms', fls', g'), err) :=
          cb c (market_state (market_snapshots e)) (values (freelancers e))
             (current_time e) (rng e) in
        let e := set_reach e (write_back (freelancers e) fls')
                   (update_nth i c' (clients e)) (contracts e) g' in
        let e := set_market_snapshots e
                   (write_back_market_state (market_snapshots e) ms') in
        reraise err e
    end.

(** Phase 2: [_execute_agent_behaviors] *)
Definition _execute_agent_behaviors : M unit :=
  e <- get;;
  (match freelancer_behavior_model e with
   | Some fb => for_each (seq 0 (List.length (freelancers e))) (freelancer_call fb)
   | None => ret tt
   end);;
  e <- get;;
  match client_behavior_model e with
  | Some cb => for_each (seq 0 (List.length (clients e))) (client_call cb)
  | None => ret tt
  end.

(** The body of the loop of [_process_contracts]. *)
Definition process_contract (today : date) (c : Contract) : Contract :=
  match end_date c with
  | Some d =>
      if (today >? d) && String.eqb (ContractStatus_value (status c)) "active"
      then set_status c COMPLETED
      else c
  | None => c
  end.

(** Phase 3: [_process_contracts] *)
Definition _process_contracts : M unit :=
  modify (fun e =>
    emit (set_reach e (freelancers e) (clients e)
            (map (fun kc => (fst kc, process_contract (date_of (current_time e)) (snd kc)))
               (contracts e))
            (rng e))
      EvProcessContracts).

(** Phase 3 applied to a mapping of contracts on day [today]. *)
Definition process_all (today : date) (ks : dict Contract) : dict Contract :=
  map (fun kc => (fst kc, process_contract today (snd kc))) ks.

(** The body of the loop of [_apply_regulatory_scenarios], for the scenario at
    position [i]. *)
Definition scenario_call (i : nat) (sc : Scenario) : M unit :=
  fun e =>
    let '(active, err) := is_active sc (current_time e) in
    match err with
    | Some x => (e, inl x)
    | None =>
        if active then
          let e := emit e (EvScenario i) in
          let '((fs, cs, ks, g), err') :=
            apply sc (freelancers e) (clients e) (contracts e) (current_time e) (rng e) in
          reraise err' (set_reach e fs cs ks g)
        else (e, inr tt)
    end.

Fixpoint apply_scenarios_from (i : nat) (scs : list Scenario) : M unit :=
  match scs with
  | [] => ret tt
  | sc :: scs' => scenario_call i sc ;; apply_scenarios_from (S i) scs'
  end.

(** Phase 4: [_apply_regulatory_scenarios] *)
Definition _apply_regulatory_scenarios : M unit :=
  e <- get;; apply_scenarios_from 0 (scenarios e).

(** Phase 5: [_collect_step_metrics] *)
Definition _collect_step_metrics : M unit :=
  fun e =>
    let e := emit e EvMetrics in
    let mc := metrics_collector e in
    match mc_raises mc (freelancers e) (clients e) (contracts e)
            (transactions e) (current_time e) with
    | Some x => (e, inl x)
    | None =>
        (set_metrics_collector e
           (mkMetricsCollector (mc_raises mc)
              (mc_history mc ++ [(freelancers e, clients e, contracts e,
                                  transactions e, current_time e)])
              (mc_summary_raises mc)),
         inr tt)
    end.

(** Phase 6: [self.current_time += self.config.time_step] *)
Definition advance_time : M unit :=
  fun e =>
    match datetime_add (current_time e) (time_step (config e)) with
    | inl x => (e, inl x)
    | inr t => (emit (set_current_time e t) EvAdvance, inr tt)
    end.

(** [step] *)
Definition step : M unit :=
  _update_market_conditions;;
  _execute_agent_behaviors;;
  _process_contracts;;
  _apply_regulatory_scenarios;;
  _collect_step_metrics;;
  advance_time.

(* ------------------------------------------------------------------ *)
(** ** Convergence and the main loop *)

(** [_check_convergence] *)
Definition _check_convergence (e : Engine) : bool :=
  let snaps := market_snapshots e in
  if (List.length snaps <? 10)%nat then false
  else
    let recent_snapshots := skipn (List.length snaps - 10) snaps in
    let compliance_rates := map compliance_rate recent_snapshots in
    let variance := np_var compliance_rates in
    (variance <? convergence_threshold (config e))%float.

(** The [while] loop of [run]; [fuel] bounds the number of iterations left
    before [iteration] reaches [max_iterations] and never cuts it short. *)
Fixpoint run_loop (fuel : nat) (iteration : Z) : M Z :=
  match fuel with
  | O => ret iteration
  | S fuel' =>
      e <- get;;
      if (current_time e <=? cfg_end_date (config e))
         && (iteration <? max_iterations (config e))
      then
        step;;
        e <- get;;
        if _check_convergence e then ret (iteration + 1)
        else run_loop fuel' (iteration + 1)
      else ret iteration
  end.

Record Results := mkResults {
  r_config : SimulationConfig;
  r_start_time : datetime;
  r_end_time : datetime;
  r_total_steps : nat;
  r_final_freelancers : nat;
  r_final_clients : nat;
  r_final_contracts : nat;
  r_final_transactions : nat;
  r_market_evolution : list MarketSnapshot;
  r_metrics : list (dict Freelancer * dict Client * dict Contract *
                    list Transaction * datetime);
  r_scenario_results : list (list (string * string));
  r_freelancers : list Freelancer;
  r_clients : list Client;
  r_contracts : list Contract;
  r_transactions : list Transaction
}.

(** [[s.get_results() for s in self.scenarios]] *)
Fixpoint scenario_results (scs : list Scenario) : Exn + list (list (string * string)) :=
  match scs with
  | [] => inr []
  | sc :: scs' =>
      match get_results sc with
      | inl x => inl x
      | inr r =>
          match scenario_results scs' with
          | inl x => inl x
          | inr rs => inr (r :: rs)
          end
      end
  end.

(** [_generate_results]: the dictionary display evaluates [get_summary()]
    and then the scenarios' [get_results()]. *)
Definition _generate_results (e : Engine) : Exn + Results :=
  match get_summary (metrics_collector e) with
  | inl x => inl x
  | inr metrics =>
      match scenario_results (scenarios e) with
      | inl x => inl x
      | inr srs =>
          inr (mkResults (config e) (cfg_start_date (config e)) (current_time e)
                 (List.length (market_snapshots e))
                 (List.length (freelancers e)) (List.length (clients e))
                 (List.length (contracts e)) (List.length (transactions e))
                 (market_snapshots e) metrics srs
                 (values (freelancers e)) (values (clients e))
                 (values (contracts e)) (transactions e))
      end
  end.

(** [run]; besides the results it returns the final [iteration] count that
    [run] logs. *)
Definition run : M (Results * Z) :=
  initialize_population;;
  e <- get;;
  iteration <- run_loop (Z.to_nat (max_iterations (config e))) 0;;
  e <- get;;
  results <- lift_exn (_generate_results e);;
  ret (results, iteration).

(* ------------------------------------------------------------------ *)
(** ** Statements in the words of the spec *)

(** The scenarios at these positions are active at [t], in registration
    order. *)
Definition active_indices (scs : list Scenario) (t : datetime) : list nat :=
  filter (fun i => match nth_error scs i with
                   | Some sc => fst (is_active sc t)
                   | None => false
                   end)
    (seq 0 (List.length scs)).

(** The calls one successful [step] makes, in order, when the freelancer and
    client mappings have the keys they have after phase 1 of [e1]. *)
Definition expected_step_events (e e1 : Engine) : list Event :=
  let n := List.length (market_snapshots e) in
  (match market_dynamics_model e with Some _ => [EvMarketDynamics] | None => [] end)
  ++ [EvSnapshot]
  ++ (match freelancer_behavior_model e with
      | Some _ => map (fun k => EvFreelancerBehavior k (Some n)) (map fst (freelancers e1))
      | None => [] end)
  ++ (match client_behavior_model e with
      | Some _ => map (fun k => EvClientBehavior k (Some n)) (map fst (clients e1))
      | None => [] end)
  ++ [EvProcessContracts]
  ++ map EvScenario (active_indices (scenarios e) (current_time e))
  ++ [EvMetrics; EvAdvance].

Definition is_behavior_event (ev : Event) : bool :=
  match ev with
  | EvFreelancerBehavior _ _ | EvClientBehavior _ _ => true
  | _ => false
  end.

(** The snapshot reference a behaviour call received. *)
Definition behavior_ref (ev : Event) : option (option nat) :=
  match ev with
  | EvFreelancerBehavior _ ms | EvClientBehavior _ ms => Some ms
  | _ => None
  end.

(** No behavioural model and no scenario is installed. *)
Definition no_strategies (e : Engine) : Prop :=
  scenarios e = [] /\ freelancer_behavior_model e = None /\
  client_behavior_model e = None /\ market_dynamics_model e = None.

(** A contract is due for completion on day [today]. *)
Definition completes_on (today : date) (c : Contract) : bool :=
  match status c, end_date c with
  | ACTIVE, Some d => d <? today
  | _, _ => false
  end.

Definition count_compliant (l : list Contract) : nat :=
  List.length (filter (fun c => match sb988_compliant c with
                                | C_COMPLIANT => true | _ => false end) l).

(** The most recent [n] elements of a list. *)
Definition most_recent {A} (n : nat) (l : list A) : list A :=
  rev (firstn n (rev l)).

Definition Qsum (l : list Q) : Q := fold_right Qplus 0%Q l.

Definition count_init (l : list Event) : nat :=
  List.length (filter (fun ev => match ev with
                                 | EvInitializePopulation => true
                                 | _ => false end) l).

(** Compliance rates alternating between 0.0 and 1.0. *)
Definition alternating_0_1 : list float :=
  [0.0; 1.0; 0.0; 1.0; 0.0; 1.0; 0.0; 1.0; 0.0; 1.0]%float.
Definition alternating_1_0 : list float :=
  [1.0; 0.0; 1.0; 0.0; 1.0; 0.0; 1.0; 0.0; 1.0; 0.0]%float.

(* ------------------------------------------------------------------ *)
(** ** Concrete inputs *)

(** [SimulationConfig(start_date=datetime(2024,1,1),
    end_date=datetime(2024,1,10), max_iterations=1000, random_seed=seed)]. *)
Definition jan_config (seed : option Z) : SimulationConfig :=
  mkSimulationConfig (mk_datetime 2024 1 1) (mk_datetime 2024 1 10)
    (timedelta_days 1) 1000 500
    0.1 0.5 0.1 0.05 50.0 0.03
    None 90 seed 1000 0.001.

Definition example_freelancer (id : string) (rate : Q) : Freelancer :=
  mkFreelancer id "Ada" CONSULTANT ["python"%string] 5.0 rate "CA"
    (mk_datetime 2024 1 1) true "strict" 0.5 None 0.5 0.5 0.5 0.5.

Definition example_client (id : string) : Client :=
  mkClient id "Acme" STARTUP "tech" "small" "CA" (mk_datetime 2024 1 1)
    None None 0.5 "high" 0.5 0.5 0.5 0.5.

(** An ACTIVE contract ending on day [d]. *)
Definition example_contract (id : string) (d : date) (cs : ComplianceStatus) : Contract :=
  mkContract id "f1" "c1" "Site" "Build a site" ACTIVE (mk_datetime 2024 1 1)
    (Some (_ymd2ord 2024 1 1)) (Some d) 1000 "net_30" "USD" None None [] []
    cs 0.0 [] 0.0 false None false "minimal".

Definition example_transaction (id : string) (t : datetime) (a : Q) : Transaction :=
  mkTransaction id "k1" "f1" "c1" a t "bank_transfer" "completed" 0 0 0 None None.

Definition example_snapshot (rate : float) : MarketSnapshot :=
  mkMarketSnapshot (mk_datetime 2024 1 1) 0 0 0 0%Q 0.0 rate 0.5 0.5 0.5.

(** [f.hourly_rate = r] *)
Definition set_hourly_rate (f : Freelancer) (r : Q) : Freelancer :=
  mkFreelancer (f_id f) (f_name f) (freelancer_type f) (skills f)
    (experience_years f) r (f_location f) (f_created_at f) (sb988_aware f)
    (compliance_preference f) (administrative_capacity f) (annual_income f)
    (primary_client_dependency f) (risk_tolerance f) (negotiation_skill f)
    (market_knowledge f).

(** A deterministic freelancer strategy that draws from [np.random]: the
    freelancer's new rate is the draw, and the draw advances the generator. *)
Definition drawing_freelancer_model : FreelancerBehaviorModel :=
  fun f ms cls t g => ((set_hourly_rate f (inject_Z g), ms, cls, g + 1), None).

(** A client strategy that changes nothing. *)
Definition idle_client_model : ClientBehaviorModel :=
  fun c ms fls t g => ((c, ms, fls, g), None).

(** A market-dynamics strategy that changes nothing. *)
Definition idle_market_model : MarketDynamicsModel :=
  fun fs cs ks t g => ((fs, cs, ks, g), None).

(** A scenario always (or never) active whose [apply] changes nothing. *)
Definition constant_scenario (active : bool) : Scenario :=
  mkScenario (fun _ => (active, None)) (fun fs cs ks t g => ((fs, cs, ks, g), None)) (inr []).

(** A scenario that marks every contract DISPUTED and then raises. *)
Definition failing_scenario : Scenario :=
  mkScenario (fun _ => (true, None))
    (fun fs cs ks t g =>
       ((fs, cs, map (fun kc => (fst kc, set_status (snd kc) DISPUTED)) ks, g),
        Some "ValueError"%string))
    (inr []).

(** The engine [SimulationEngine(config)] returns; a seed the constructor
    rejects leaves the attributes set before seeding (not used below: every
    seed passed here is in range). *)
Definition engine_of (cfg : SimulationConfig) (g : RNG) : Engine :=
  match SimulationEngine_new cfg g with
  | inr e => e
  | inl _ => SimulationEngine_fields cfg g
  end.

(** An engine for [jan_config seed] built with the generator in state [g],
    populated with one freelancer, one client and one contract. *)
Definition populated_engine (seed : option Z) (g : RNG) : Engine :=
  let e := engine_of (jan_config seed) g in
  set_reach e [("f1"%string, example_freelancer "f1" 60)] [("c1"%string, example_client "c1")]
    [("k1"%string, example_contract "k1" (_ymd2ord 2024 1 5) C_COMPLIANT)] (rng e).

(** The populated engine with every kind of strategy installed: both
    behavioural models, a market model, an active and an inactive scenario. *)
Definition full_engine : Engine :=
  add_scenario (constant_scenario false)
    (add_scenario (constant_scenario true)
       (set_behavioral_models (Some drawing_freelancer_model)
          (Some idle_client_model) (Some idle_market_model)
          (populated_engine (Some 42%Z) 0%Z))).

(** The engine with transaction log [ts], as strategies appending to
    [self.transactions] leave it. *)
Definition with_transactions (e : Engine) (ts : list Transaction) : Engine :=
  mkEngine (config e) (current_time e) (freelancers e) (clients e)
    (contracts e) ts (market_snapshots e) (metrics_collector e) (scenarios e)
    (freelancer_behavior_model e) (client_behavior_model e)
    (market_dynamics_model e) (rng e) (trace e).

(** Two transactions on 2024-01-01 (at noon and at midnight) and one on
    2024-01-02. *)
Definition example_transactions : list Transaction :=
  [example_transaction "t1" (mk_datetime 2024 1 1 + 12 * 3600 * 1000000) 10;
   example_transaction "t2" (mk_datetime 2024 1 2) 100;
   example_transaction "t3" (mk_datetime 2024 1 1) 20].

(** Phase 3 in the words of the spec: every ACTIVE contract whose end date
    is strictly before [today] becomes COMPLETED, the others are unchanged. *)
Definition complete_due (today : date) (ks : dict Contract) : dict Contract :=
  map (fun kc => (fst kc, if completes_on today (snd kc)
                          then set_status (snd kc) COMPLETED else snd kc)) ks.

(** Position by position, [ks'] has the keys of [ks], and a contract
    COMPLETED in [ks] is COMPLETED in [ks']. *)
Definition keeps_completed (ks ks' : dict Contract) : Prop :=
  Forall2 (fun kc kc' => fst kc' = fst kc /\
             (status (snd kc) = COMPLETED -> status (snd kc') = COMPLETED)) ks ks'.

(** The loop of [run] in the words of the spec: [loop_runs it e e' n] when,
    starting at iteration count [it] in state [e], the loop ends in state [e']
    with count [n]: while the current time is at most the end time and the
    count is below the maximum, [step] runs and the count is incremented, and
    the loop stops early once the convergence predicate holds after a step. *)
Definition loop_guard (it : Z) (e : Engine) : Prop :=
  current_time e <= cfg_end_date (config e) /\ it < max_iterations (config e).

Inductive loop_runs : Z -> Engine -> Engine -> Z -> Prop :=
| loop_stop it e :
    ~ loop_guard it e -> loop_runs it e e it
| loop_converged it e e1 :
    loop_guard it e -> step e = (e1, inr tt) -> _check_convergence e1 = true ->
    loop_runs it e e1 (it + 1)
| loop_next it e e1 e' n :
    loop_guard it e -> step e = (e1, inr tt) -> _check_convergence e1 = false ->
    loop_runs (it + 1) e1 e' n -> loop_runs it e e' n.

(** The populated engine for [jan_config seed], built while [np.random] is in
    state [g], with the drawing freelancer strategy installed. *)
Definition drawing_engine (seed : option Z) (g : RNG) : Engine :=
  set_behavioral_models (Some drawing_freelancer_model) None None
    (populated_engine seed g).

(** A fresh engine for the January configuration with convergence
    threshold [thr], holding the snapshots [snaps]. *)
Definition snapshot_engine (thr : float) (snaps : list MarketSnapshot) : Engine :=
  let c := jan_config None in
  set_market_snapshots
    (engine_of
       (mkSimulationConfig (cfg_start_date c) (cfg_end_date c) (time_step c)
          (initial_freelancers c) (initial_clients c) (market_volatility c)
          (regulatory_enforcement_level c) (agent_interaction_probability c)
          (contract_formation_rate c) (base_hourly_rate c) (inflation_rate c)
          (sb988_enforcement_date c) (compliance_grace_period c) (random_seed c)
          (max_iterations c) thr) 0)
    snaps.

(** The January engine with convergence threshold [1e-40] and three
    contracts, one of them compliant. *)
Definition third_engine : Engine :=
  let e := snapshot_engine 1e-40 [] in
  set_reach e [] []
    [("k1"%string, example_contract "k1" (_ymd2ord 2024 1 5) C_COMPLIANT);
     ("k2"%string, example_contract "k2" (_ymd2ord 2024 1 5) C_NON_COMPLIANT);
     ("k3"%string, example_contract "k3" (_ymd2ord 2024 1 5) C_NON_COMPLIANT)]
    (rng e).

(** The January engine with three freelancers, paid 0.1, 0.2 and 0.3 an
    hour, and no strategies. *)
Definition rates_engine : Engine :=
  let e := engine_of (jan_config None) 0 in
  set_reach e
    [("f1"%string, example_freelancer "f1" (1 # 10));
     ("f2"%string, example_freelancer "f2" (2 # 10));
     ("f3"%string, example_freelancer "f3" (3 # 10))] [] [] (rng e).

(** The snapshot list is [P] followed by one snapshot. *)
Definition ends_after (P : list MarketSnapshot) (e : Engine) : Prop :=
  exists s, market_snapshots e = P ++ [s].

(* ------------------------------------------------------------------ *)
(** ** Signs of binary64 values *)

(** Not negative: a non-negative finite number, a zero of either sign,
    [+inf] or NaN. *)
Definition sf_not_neg (x : spec_float) : bool :=
  match x with S754_finite true _ _ | S754_infinity true => false | _ => true end.

(** Positive: as [sf_not_neg], without [-0.0]. *)
Definition sf_pos (x : spec_float) : bool :=
  match x with S754_finite true _ _ | S754_infinity true | S754_zero true => false | _ => true end.

(** A float with a non-negative value (or NaN). *)
Definition nn (x : float) : Prop := sf_not_neg (Prim2SF x) = true.

(* ------------------------------------------------------------------ *)
(** ** Binary64 lemmas *)

Lemma digits2_pos_size p : digits2_pos p = Pos.size p.
Proof. induction p; cbn; congruence. Qed.

Lemma Zdigits2_log2 p : Zdigits2 (Zpos p) = Z.log2 (Zpos p) + 1.
Proof.
  cbn [Zdigits2]. rewrite digits2_pos_size.
  destruct p; cbn [Z.log2 Pos.size]; rewrite ?Pos2Z.inj_succ; reflexivity.
Qed.

Lemma Zdigits2_nonneg z : 0 <= Zdigits2 z.
Proof. destruct z; cbn; lia. Qed.

Lemma Zdigits2_le z b : 0 <= z < 2 ^ b -> 0 <= b -> Zdigits2 z <= b.
Proof.
  intros [H0 H1] Hb. destruct z as [|p|p]; [cbn; lia| |lia].
  rewrite Zdigits2_log2. apply Z.log2_lt_pow2 in H1; lia.
Qed.

Lemma Zdigits2_lt z : 0 <= z -> z < 2 ^ Zdigits2 z.
Proof.
  intro H. destruct z as [|p|p]; [cbn; lia| |lia].
  rewrite Zdigits2_log2. apply Z.log2_spec. lia.
Qed.

Lemma Zdigits2_ge z : 0 < z -> 2 ^ (Zdigits2 z - 1) <= z.
Proof.
  intro H. destruct z as [|p|p]; try lia.
  rewrite Zdigits2_log2. replace (Z.log2 (Zpos p) + 1 - 1) with (Z.log2 (Zpos p)) by lia.
  apply Z.log2_spec. lia.
Qed.

(* ---- shifting ---- *)
Lemma shr_1_m r : 0 <= shr_m r -> shr_m (shr_1 r) = shr_m r / 2.
Proof.
  destruct r as [m rr ss]; cbn [shr_m]. intro H.
  destruct m as [|[p|p|]|p]; cbn; try lia; try reflexivity.
  - rewrite Pos2Z.inj_xI. rewrite Z.add_comm, Z.mul_comm, Z.div_add by lia. reflexivity.
  - rewrite Pos2Z.inj_xO. rewrite Z.mul_comm, Z.div_mul by lia. reflexivity.
Qed.

Lemma iter_shr_1_m p : forall r, 0 <= shr_m r ->
  shr_m (iter_pos shr_1 p r) = shr_m r / 2 ^ Zpos p.
Proof.
  induction p as [p IH|p IH|]; intros r H; cbn [iter_pos];
    try assert (P := Z.pow_pos_nonneg 2 (Zpos p) ltac:(lia) ltac:(lia)).
  - assert (H1 : 0 <= shr_m (shr_1 r)) by (rewrite shr_1_m; auto; apply Z.div_pos; lia).
    assert (H2 : 0 <= shr_m (iter_pos shr_1 p (shr_1 r)))
      by (rewrite IH; auto; apply Z.div_pos; [lia|apply Z.pow_pos_nonneg; lia]).
    rewrite (IH _ H2), (IH _ H1), shr_1_m by exact H.
    rewrite !Z.div_div by nia.
    f_equal. rewrite Pos2Z.inj_xI.
    rewrite <- Z.pow_add_r by lia. rewrite <- (Z.pow_1_r 2) at 1.
    rewrite <- Z.pow_add_r by lia. f_equal. lia.
  - assert (H2 : 0 <= shr_m (iter_pos shr_1 p r))
      by (rewrite IH; auto; apply Z.div_pos; [lia|apply Z.pow_pos_nonneg; lia]).
    rewrite (IH _ H2), (IH _ H).
    rewrite Z.div_div by nia.
    rewrite <- Z.pow_add_r by lia. f_equal. f_equal. lia.
  - apply shr_1_m; auto.
Qed.

Lemma shr_record_of_loc_m m l : shr_m (shr_record_of_loc m l) = m.
Proof. destruct l as [|[]]; reflexivity. Qed.

Lemma shr_fexp_spec m e l mrs e' :
  0 <= m -> shr_fexp prec emax m e l = (mrs, e') ->
  e' = Z.max e (fexp prec emax (Zdigits2 m + e)) /\
  shr_m mrs = m / 2 ^ (e' - e) /\ 0 <= shr_m mrs.
Proof.
  intros Hm. unfold shr_fexp, shr.
  destruct (fexp prec emax (Zdigits2 m + e) - e) as [|p|p] eqn:Hd; intro H;
    inversion H; subst; clear H.
  - rewrite shr_record_of_loc_m. rewrite Z.sub_diag, Z.pow_0_r, Z.div_1_r. lia.
  - rewrite iter_shr_1_m; rewrite shr_record_of_loc_m; [|lia].
    split; [lia|]. split; [f_equal; f_equal; lia|]. apply Z.div_pos; lia.
  - rewrite shr_record_of_loc_m. rewrite Z.sub_diag, Z.pow_0_r, Z.div_1_r. lia.
Qed.

Lemma round_nearest_even_le m l : 0 <= m -> m <= round_nearest_even m l <= m + 1.
Proof. destruct l as [|[]]; cbn; try destruct (Z.even m); lia. Qed.

Lemma Zdigits2_mono a b : 0 <= a <= b -> Zdigits2 a <= Zdigits2 b.
Proof.
  intro H. apply Zdigits2_le; [|apply Zdigits2_nonneg].
  pose proof (Zdigits2_lt b). lia.
Qed.

Lemma Zdigits2_succ m : 0 <= m -> Zdigits2 (m + 1) <= Zdigits2 m + 1.
Proof.
  intro H. pose proof (Zdigits2_lt m H). pose proof (Zdigits2_nonneg m).
  apply Zdigits2_le; [|lia]. rewrite Z.pow_add_r, Z.pow_1_r by lia. lia.
Qed.

Lemma Zdigits2_div m j : 0 <= m -> 0 <= j ->
  Zdigits2 (m / 2 ^ j) <= Z.max 0 (Zdigits2 m - j).
Proof.
  intros Hm Hj. pose proof (Zdigits2_lt m Hm).
  assert (P := Z.pow_pos_nonneg 2 j ltac:(lia) Hj).
  apply Zdigits2_le; [split|lia].
  - apply Z.div_pos; lia.
  - apply Z.div_lt_upper_bound; [lia|]. rewrite <- Z.pow_add_r by lia.
    apply Z.lt_le_trans with (1 := H). apply Z.pow_le_mono_r; lia.
Qed.

(* ---- a rounding that cannot overflow ---- *)
Lemma binary_round_aux_small sx mx ex lx :
  0 <= mx -> ex <= 0 -> Zdigits2 mx + ex <= 1 ->
  match binary_round_aux prec emax sx mx ex lx with
  | S754_infinity _ | S754_nan => False
  | _ => True
  end.
Proof.
  intros Hm He Hd. unfold binary_round_aux.
  destruct (shr_fexp prec emax mx ex lx) as [mrs1 e1] eqn:H1.
  destruct (shr_fexp_spec _ _ _ _ _ Hm H1) as (E1 & M1 & P1).
  assert (R2 := round_nearest_even_le (shr_m mrs1) (loc_of_shr_record mrs1) P1).
  destruct (shr_fexp prec emax (round_nearest_even (shr_m mrs1) (loc_of_shr_record mrs1))
              e1 loc_Exact) as [mrs2 e2] eqn:H2.
  assert (P1' : 0 <= round_nearest_even (shr_m mrs1) (loc_of_shr_record mrs1)) by lia.
  destruct (shr_fexp_spec _ _ _ _ _ P1' H2) as (E2 & M2 & P2).
  assert (Hfe : forall z, z <= 2 -> fexp prec emax z <= -51)
    by (intros z Hz; unfold fexp, prec, emax, emin; lia).
  assert (He1 : e1 <= 0) by (rewrite E1; specialize (Hfe (Zdigits2 mx + ex)); lia).
  assert (Hd1 : Zdigits2 (shr_m mrs1) + e1 <= 1).
  { rewrite M1. pose proof (Zdigits2_div mx (e1 - ex) Hm ltac:(lia)). lia. }
  assert (Hd2 : Zdigits2 (round_nearest_even (shr_m mrs1) (loc_of_shr_record mrs1)) + e1 <= 2).
  { pose proof (Zdigits2_mono _ _ (ltac:(lia) : 0 <= round_nearest_even (shr_m mrs1) (loc_of_shr_record mrs1) <= shr_m mrs1 + 1)).
    pose proof (Zdigits2_succ _ P1). lia. }
  assert (He2 : e2 <= 0) by (rewrite E2; specialize (Hfe _ Hd2); lia).
  destruct (shr_m mrs2) as [|m|m]; [exact I| |lia].
  replace (e2 <=? emax - prec) with true; [exact I|].
  symmetry. apply Z.leb_le. unfold emax, prec. lia.
Qed.

Lemma SF64div_small k n : Zpos k <= Zpos n ->
  match SF64div (S754_finite false k 0) (S754_finite false n 0) with
  | S754_infinity _ | S754_nan => False
  | _ => True
  end.
Proof.
  intro Hkn. unfold SF64div, SFdiv, SFdiv_core_binary.
  assert (Hd : Zdigits2 (Zpos k) <= Zdigits2 (Zpos n)) by (apply Zdigits2_mono; lia).
  set (e0 := Z.min (fexp prec emax (Zdigits2 (Zpos k) + 0 - (Zdigits2 (Zpos n) + 0))) (0 - 0)).
  assert (He0 : e0 <= -53) by (unfold e0, fexp, prec, emax, emin; lia).
  assert (Hs : 0 - 0 - e0 = Zpos (Z.to_pos (- e0))) by (rewrite Z2Pos.id; lia).
  rewrite Hs. rewrite <- Hs.
  destruct (Z.div_eucl (Z.shiftl (Zpos k) (0 - 0 - e0)) (Zpos n)) as [q r] eqn:Hq.
  assert (Hq' : q = Zpos k * 2 ^ (- e0) / Zpos n).
  { rewrite <- Z.shiftl_mul_pow2 by lia. replace (- e0) with (0 - 0 - e0) by lia.
    unfold Z.div. rewrite Hq. reflexivity. }
  assert (P := Z.pow_pos_nonneg 2 (- e0) ltac:(lia) ltac:(lia)).
  assert (Hq0 : 0 <= q) by (rewrite Hq'; apply Z.div_pos; lia).
  assert (Hq1 : q <= 2 ^ (- e0)).
  { rewrite Hq'. apply Z.div_le_upper_bound; [lia|]. nia. }
  assert (Hdq : Zdigits2 q <= - e0 + 1).
  { apply Zdigits2_le; [|lia]. split; [lia|]. rewrite Z.pow_add_r, Z.pow_1_r by lia. lia. }
  apply binary_round_aux_small; lia.
Qed.

Lemma int_truediv_ok a b : 0 <= a <= b -> 0 < b -> exists f, int_truediv a b = inr f.
Proof.
  intros Hab Hb. unfold int_truediv.
  replace (b =? 0) with false by (symmetry; apply Z.eqb_neq; lia).
  destruct b as [|n|n]; try lia. destruct a as [|k|k]; try lia.
  - cbn. eexists; reflexivity.
  - pose proof (SF64div_small k n ltac:(lia)) as H. cbn [sf_of_Z].
    destruct (SF64div _ _); try contradiction; eexists; reflexivity.
Qed.

Lemma binary_round_aux_pos m e l : sf_pos (binary_round_aux prec emax false m e l) = true.
Proof.
  unfold binary_round_aux.
  destruct (shr_fexp prec emax m e l) as [r1 e1].
  destruct (shr_fexp prec emax _ e1 loc_Exact) as [r2 e2].
  destruct (shr_m r2); try reflexivity. destruct (_ <=? _); reflexivity.
Qed.

(* ---- exact shifts, canonical results and quotients at most one ---- *)
Lemma shr_1_exact r :
  shr_r r = false -> shr_s r = false -> 0 <= shr_m r -> (2 | shr_m r) ->
  shr_r (shr_1 r) = false /\ shr_s (shr_1 r) = false.
Proof.
  destruct r as [m rr ss]; cbn [shr_r shr_s shr_m]. intros -> -> Hm [c Hc].
  destruct m as [|[p|p|]|p]; cbn; auto; exfalso.
  - rewrite Pos2Z.inj_xI in Hc. lia.
  - lia.
  - lia.
Qed.

Lemma iter_shr_1_exact p : forall r,
  shr_r r = false -> shr_s r = false -> 0 <= shr_m r -> (2 ^ Zpos p | shr_m r) ->
  shr_r (iter_pos shr_1 p r) = false /\ shr_s (iter_pos shr_1 p r) = false.
Proof.
  induction p as [p IH|p IH|]; intros r Hr Hs Hm [c Hc]; cbn [iter_pos].
  - (* two halves of [p] steps, after one step *)
    assert (Hp : 0 <= c).
    { assert (0 < 2 ^ Zpos (xI p)) by (apply Z.pow_pos_nonneg; lia). nia. }
    rewrite Pos2Z.inj_xI in Hc.
    destruct (shr_1_exact r Hr Hs Hm) as [Hr0 Hs0].
    { exists (c * 2 ^ (2 * Zpos p)). rewrite Hc, Z.pow_add_r, Z.pow_1_r by lia. ring. }
    assert (Hm0 : shr_m (shr_1 r) = c * 2 ^ Zpos p * 2 ^ Zpos p).
    { rewrite shr_1_m, Hc by exact Hm.
      replace (c * 2 ^ (2 * Zpos p + 1)) with (c * 2 ^ Zpos p * 2 ^ Zpos p * 2)
        by (rewrite Z.pow_add_r, Z.pow_1_r by lia;
            replace (2 * Zpos p) with (Zpos p + Zpos p) by lia;
            rewrite Z.pow_add_r by lia; ring).
      apply Z.div_mul; lia. }
    assert (P := Z.pow_pos_nonneg 2 (Zpos p) ltac:(lia) ltac:(lia)).
    destruct (IH (shr_1 r) Hr0 Hs0) as [Hr1 Hs1]; [rewrite Hm0; nia|rewrite Hm0; exists (c * 2 ^ Zpos p); ring|].
    assert (Hm1 : shr_m (iter_pos shr_1 p (shr_1 r)) = c * 2 ^ Zpos p).
    { rewrite iter_shr_1_m, Hm0 by (rewrite Hm0; nia). apply Z.div_mul; lia. }
    apply IH; auto; rewrite Hm1; [nia|exists c; ring].
  - assert (Hp : 0 <= c).
    { assert (0 < 2 ^ Zpos (xO p)) by (apply Z.pow_pos_nonneg; lia). nia. }
    replace (Zpos (xO p)) with (Zpos p + Zpos p) in Hc by lia.
    rewrite Z.pow_add_r in Hc by lia.
    assert (P := Z.pow_pos_nonneg 2 (Zpos p) ltac:(lia) ltac:(lia)).
    destruct (IH r Hr Hs Hm) as [Hr1 Hs1]; [rewrite Hc; exists (c * 2 ^ Zpos p); ring|].
    assert (Hm1 : shr_m (iter_pos shr_1 p r) = c * 2 ^ Zpos p).
    { rewrite iter_shr_1_m, Hc by exact Hm.
      rewrite Z.mul_assoc. apply Z.div_mul; lia. }
    apply IH; auto; rewrite Hm1; [nia|exists c; ring].
  - apply shr_1_exact; auto. exists c. rewrite Hc. reflexivity.
Qed.

Lemma shr_fexp_exact m e mrs e' :
  0 <= m -> shr_fexp prec emax m e loc_Exact = (mrs, e') -> (2 ^ (e' - e) | m) ->
  loc_of_shr_record mrs = loc_Exact.
Proof.
  intros Hm. unfold shr_fexp, shr.
  destruct (fexp prec emax (Zdigits2 m + e) - e) as [|p|p] eqn:Hd; intro H;
    inversion H; subst; clear H; intro Hdiv; try reflexivity.
  replace (e + Zpos p - e) with (Zpos p) in Hdiv by lia.
  destruct (iter_shr_1_exact p (shr_record_of_loc m loc_Exact) eq_refl eq_refl Hm Hdiv)
    as [Hr Hs].
  destruct (iter_pos shr_1 p _) as [m' [] []]; cbn in Hr, Hs; try discriminate.
  reflexivity.
Qed.

Lemma Zdigits2_div_ge m j : 0 <= m -> 0 <= j -> Zdigits2 m - j <= Zdigits2 (m / 2 ^ j).
Proof.
  intros Hm Hj. pose proof (Zdigits2_nonneg (m / 2 ^ j)).
  destruct (Z.le_gt_cases (Zdigits2 m - j) 0) as [Hle|Hgt]; [lia|].
  assert (Hm0 : 0 < m) by (destruct m; cbn in Hgt; lia).
  pose proof (Zdigits2_ge m Hm0) as G.
  assert (P := Z.pow_pos_nonneg 2 j ltac:(lia) Hj).
  assert (Q : 2 ^ (Zdigits2 m - 1 - j) <= m / 2 ^ j).
  { apply Z.div_le_lower_bound; [lia|].
    rewrite <- Z.pow_add_r by lia. replace (j + (Zdigits2 m - 1 - j)) with (Zdigits2 m - 1) by lia.
    exact G. }
  pose proof (Zdigits2_lt (m / 2 ^ j) ltac:(apply Z.div_pos; lia)) as L.
  assert (2 ^ (Zdigits2 m - 1 - j) < 2 ^ Zdigits2 (m / 2 ^ j)) by lia.
  apply Z.pow_lt_mono_r_iff in H0; lia.
Qed.

Lemma fexp_mono a b : a <= b -> fexp prec emax a <= fexp prec emax b.
Proof. unfold fexp. lia. Qed.

Lemma binary_round_aux_valid mx ex lx :
  0 <= mx -> ex <= fexp prec emax (Zdigits2 mx + ex) ->
  valid_binary (binary_round_aux prec emax false mx ex lx) = true.
Proof.
  intros Hm Hex. unfold binary_round_aux.
  destruct (shr_fexp prec emax mx ex lx) as [mrs1 e1] eqn:H1.
  destruct (shr_fexp_spec _ _ _ _ _ Hm H1) as (E1 & M1 & P1).
  assert (R := round_nearest_even_le (shr_m mrs1) (loc_of_shr_record mrs1) P1).
  set (r1 := round_nearest_even (shr_m mrs1) (loc_of_shr_record mrs1)) in *.
  destruct (shr_fexp prec emax r1 e1 loc_Exact) as [mrs2 e2] eqn:H2.
  assert (P1' : 0 <= r1) by lia.
  destruct (shr_fexp_spec _ _ _ _ _ P1' H2) as (E2 & M2 & P2).
  assert (Ee1 : e1 = fexp prec emax (Zdigits2 mx + ex)) by lia.
  assert (D1 : Zdigits2 mx - (e1 - ex) <= Zdigits2 (shr_m mrs1))
    by (rewrite M1; apply Zdigits2_div_ge; lia).
  assert (D1' : Zdigits2 (shr_m mrs1) <= Zdigits2 r1) by (apply Zdigits2_mono; lia).
  assert (Ee2 : e2 = fexp prec emax (Zdigits2 r1 + e1)).
  { pose proof (fexp_mono (Zdigits2 mx + ex) (Zdigits2 r1 + e1) ltac:(lia)). lia. }
  destruct (shr_m mrs2) as [|p|p] eqn:Hm2; [reflexivity| |lia].
  destruct (e2 <=? emax - prec) eqn:Hb; [|reflexivity].
  cbn [valid_binary]. unfold bounded, canonical_mantissa. rewrite Hb, andb_true_r.
  apply Z.eqb_eq.
  assert (Dl : Zdigits2 r1 - (e2 - e1) <= Zdigits2 (Zpos p)).
  { rewrite M2; apply Zdigits2_div_ge; lia. }
  assert (Du : Zdigits2 (Zpos p) <= Z.max 0 (Zdigits2 r1 - (e2 - e1)))
    by (rewrite M2; apply Zdigits2_div; lia).
  assert (Zdigits2 (Zpos p) > 0) by (cbn; lia).
  change (Zpos (digits2_pos p)) with (Zdigits2 (Zpos p)).
  replace (Zdigits2 (Zpos p) + e2) with (Zdigits2 r1 + e1) by lia.
  lia.
Qed.

Lemma compare_cont_gt p q : PosDef.Pos.compare_cont Eq p q = Gt -> Zpos q < Zpos p.
Proof. intro H. change (Pos.compare p q = Gt) in H. apply Pos.compare_gt_iff in H. lia. Qed.

Lemma binary_round_aux_le_one mx ex lx :
  0 <= mx -> ex <= -53 -> mx <= 2 ^ (- ex) -> (mx = 2 ^ (- ex) -> lx = loc_Exact) ->
  SFleb (binary_round_aux prec emax false mx ex lx)
        (S754_finite false 4503599627370496 (-52)) = true.
Proof.
  intros Hm He Hle Hx. unfold binary_round_aux.
  destruct (shr_fexp prec emax mx ex lx) as [mrs1 e1] eqn:H1.
  destruct (shr_fexp_spec _ _ _ _ _ Hm H1) as (E1 & M1 & P1).
  assert (Hfe : forall z, z <= 1 -> fexp prec emax z <= -52)
    by (intros z Hz; unfold fexp, prec, emax, emin; lia).
  assert (Dmx : Zdigits2 mx <= - ex + 1).
  { apply Zdigits2_le; [|lia]. split; [lia|]. rewrite Z.pow_add_r, Z.pow_1_r by lia. lia. }
  assert (He1 : e1 <= -52) by (rewrite E1; specialize (Hfe (Zdigits2 mx + ex)); lia).
  assert (Pe := Z.pow_pos_nonneg 2 (e1 - ex) ltac:(lia) ltac:(lia)).
  assert (Pe1 := Z.pow_pos_nonneg 2 (- e1) ltac:(lia) ltac:(lia)).
  assert (Split : 2 ^ (- e1) * 2 ^ (e1 - ex) = 2 ^ (- ex))
    by (rewrite <- Z.pow_add_r by lia; f_equal; lia).
  assert (Hm1 : shr_m mrs1 <= 2 ^ (- e1)).
  { rewrite M1. apply Z.div_le_upper_bound; lia. }
  set (r1 := round_nearest_even (shr_m mrs1) (loc_of_shr_record mrs1)).
  assert (Hr1 : 0 <= r1 <= 2 ^ (- e1)).
  { pose proof (round_nearest_even_le (shr_m mrs1) (loc_of_shr_record mrs1) P1).
    destruct (Z.eq_dec (shr_m mrs1) (2 ^ (- e1))) as [Eq|Ne]; [|unfold r1; lia].
    assert (Hmx : mx = 2 ^ (- ex)).
    { pose proof (Z.mul_div_le mx (2 ^ (e1 - ex)) ltac:(lia)). rewrite <- M1, Eq in H0. lia. }
    assert (L : loc_of_shr_record mrs1 = loc_Exact).
    { rewrite (Hx Hmx) in H1. apply (shr_fexp_exact _ _ _ _ Hm H1).
      rewrite Hmx, <- Split. exists (2 ^ (- e1)). ring. }
    unfold r1. rewrite L. cbn. lia. }
  destruct (shr_fexp prec emax r1 e1 loc_Exact) as [mrs2 e2] eqn:H2.
  destruct (shr_fexp_spec _ _ _ _ _ (proj1 Hr1) H2) as (E2 & M2 & P2).
  assert (Dr1 : Zdigits2 r1 <= - e1 + 1).
  { apply Zdigits2_le; [|lia]. split; [lia|]. rewrite Z.pow_add_r, Z.pow_1_r by lia. lia. }
  assert (He2 : e2 <= -52) by (rewrite E2; specialize (Hfe (Zdigits2 r1 + e1)); lia).
  assert (Pe' := Z.pow_pos_nonneg 2 (e2 - e1) ltac:(lia) ltac:(lia)).
  assert (Pe2 := Z.pow_pos_nonneg 2 (- e2) ltac:(lia) ltac:(lia)).
  assert (Split2 : 2 ^ (- e2) * 2 ^ (e2 - e1) = 2 ^ (- e1))
    by (rewrite <- Z.pow_add_r by lia; f_equal; lia).
  assert (Hm2 : shr_m mrs2 <= 2 ^ (- e2)).
  { rewrite M2. apply Z.div_le_upper_bound; lia. }
  destruct (shr_m mrs2) as [|p|p] eqn:Em; [reflexivity| |lia].
  replace (e2 <=? emax - prec) with true
    by (symmetry; apply Z.leb_le; unfold emax, prec; lia).
  unfold SFleb, SFcompare.
  destruct (Z.compare_spec e2 (-52)) as [Ee|Lt|Gt]; [|reflexivity|lia].
  assert (Hp : Zpos p <= 4503599627370496).
  { rewrite Ee in Hm2. assert (E52 : 2 ^ (- -52) = 4503599627370496) by reflexivity.
    rewrite E52 in Hm2. exact Hm2. }
  destruct (PosDef.Pos.compare_cont Eq p 4503599627370496) eqn:C; try reflexivity.
  apply compare_cont_gt in C. lia.
Qed.

Lemma SF64div_core k n : Zpos k <= Zpos n ->
  exists q e0 r, SF64div (S754_finite false k 0) (S754_finite false n 0)
    = binary_round_aux prec emax false q e0 (new_location (Zpos n) r) /\
  e0 = Z.min (fexp prec emax (Zdigits2 (Zpos k) - Zdigits2 (Zpos n))) 0 /\
  Zpos k * 2 ^ (- e0) = Zpos n * q + r /\ 0 <= r < Zpos n /\ e0 <= -53.
Proof.
  intro Hkn. unfold SF64div, SFdiv, SFdiv_core_binary.
  assert (Hd : Zdigits2 (Zpos k) <= Zdigits2 (Zpos n)) by (apply Zdigits2_mono; lia).
  set (e0 := Z.min (fexp prec emax (Zdigits2 (Zpos k) + 0 - (Zdigits2 (Zpos n) + 0))) (0 - 0)).
  assert (He0 : e0 <= -53).
  { pose proof (Zdigits2_nonneg (Zpos k)). pose proof (Zdigits2_nonneg (Zpos n)).
    unfold e0, fexp, prec, emax, emin. lia. }
  assert (Hs : 0 - 0 - e0 = Zpos (Z.to_pos (- e0))) by (rewrite Z2Pos.id; lia).
  rewrite Hs. rewrite <- Hs.
  destruct (Z.div_eucl (Z.shiftl (Zpos k) (0 - 0 - e0)) (Zpos n)) as [q r] eqn:Hq.
  pose proof (Z_div_mod (Z.shiftl (Zpos k) (0 - 0 - e0)) (Zpos n) ltac:(lia)) as D.
  rewrite Hq in D. destruct D as [D1 D2].
  rewrite Z.shiftl_mul_pow2 in D1 by lia.
  exists q, e0, r. cbn [xorb]. repeat split; try lia.
  rewrite <- D1; repeat f_equal; lia.
Qed.

Lemma new_location_exact n : new_location n 0 = loc_Exact.
Proof. unfold new_location, new_location_even, new_location_odd. destruct (Z.even n); reflexivity. Qed.

Lemma SF64div_unit k n : Zpos k <= Zpos n ->
  valid_binary (SF64div (S754_finite false k 0) (S754_finite false n 0)) = true /\
  SFleb (SF64div (S754_finite false k 0) (S754_finite false n 0))
        (S754_finite false 4503599627370496 (-52)) = true.
Proof.
  intro Hkn. destruct (SF64div_core k n Hkn) as (q & e0 & r & E & He & D & R & He0).
  rewrite E.
  assert (P := Z.pow_pos_nonneg 2 (- e0) ltac:(lia) ltac:(lia)).
  assert (Hq0 : 0 <= q) by nia.
  assert (Hq1 : q <= 2 ^ (- e0)) by nia.
  split.
  - apply binary_round_aux_valid; [lia|].
    assert (Hdq : Zdigits2 (Zpos k) - Zdigits2 (Zpos n) - e0 <= Zdigits2 q).
    { pose proof (Zdigits2_nonneg q).
      destruct (Z.lt_ge_cases (Zdigits2 (Zpos k) - Zdigits2 (Zpos n) - e0 - 1) 0) as [Lt|Ge]; [lia|].
      set (t := Zdigits2 (Zpos k) - Zdigits2 (Zpos n) - e0 - 1) in *.
      assert (Qt : 2 ^ t <= q).
      { destruct (Z.lt_ge_cases q (2 ^ t)) as [Lq|]; [exfalso|lia].
        pose proof (Zdigits2_lt (Zpos n) ltac:(lia)) as Ln.
        pose proof (Zdigits2_ge (Zpos k) ltac:(lia)) as Gk.
        assert (Pt := Z.pow_pos_nonneg 2 t ltac:(lia) Ge).
        assert (Eq2 : 2 ^ t * 2 ^ Zdigits2 (Zpos n) = 2 ^ (Zdigits2 (Zpos k) - 1) * 2 ^ (- e0)).
        { assert (1 <= Zdigits2 (Zpos k)) by (cbn; lia).
          pose proof (Zdigits2_nonneg (Zpos n)).
          rewrite <- Z.pow_add_r by lia. rewrite <- Z.pow_add_r by lia.
          f_equal. unfold t. lia. }
        assert (Zpos n * (q + 1) <= Zpos n * 2 ^ t) by nia.
        assert (Zpos n * 2 ^ t < 2 ^ Zdigits2 (Zpos n) * 2 ^ t) by nia.
        assert (2 ^ (Zdigits2 (Zpos k) - 1) * 2 ^ (- e0) <= Zpos k * 2 ^ (- e0)) by nia.
        nia. }
      pose proof (Zdigits2_lt q Hq0).
      assert (2 ^ t < 2 ^ Zdigits2 q) by lia.
      apply Z.pow_lt_mono_r_iff in H1; lia. }
    pose proof (fexp_mono (Zdigits2 (Zpos k) - Zdigits2 (Zpos n)) (Zdigits2 q + e0) ltac:(lia)).
    lia.
  - apply binary_round_aux_le_one; try lia.
    intro Hq. assert (r = 0) by nia. subst r. apply new_location_exact.
Qed.

Lemma int_truediv_unit a b : 0 <= a <= b -> 0 < b ->
  exists f, int_truediv a b = inr f /\ (0.0 <=? f)%float = true /\ (f <=? 1.0)%float = true.
Proof.
  intros Hab Hb. unfold int_truediv.
  replace (b =? 0) with false by (symmetry; apply Z.eqb_neq; lia).
  destruct b as [|n|n]; try lia. destruct a as [|k|k]; try lia.
  - cbn. eexists; split; [reflexivity|]. split; reflexivity.
  - destruct (SF64div_unit k n ltac:(lia)) as [V L].
    destruct (SF64div_core k n ltac:(lia)) as (q & e0 & r & E & _).
    assert (Sg : sf_pos (SF64div (S754_finite false k 0) (S754_finite false n 0)) = true)
      by (rewrite E; apply binary_round_aux_pos).
    cbn [sf_of_Z].
    destruct (SF64div (S754_finite false k 0) (S754_finite false n 0)) as [s|s| |s m ex] eqn:Hx;
      [| destruct s; cbn in L, Sg; discriminate | cbn in L; discriminate |];
      eexists; (split; [reflexivity|]);
      rewrite !leb_spec, Prim2SF_SF2Prim by exact V; destruct s; try discriminate;
      split; try reflexivity; exact L.
Qed.

Lemma binary_normalize_pos m e : 0 <= m -> sf_pos (binary_normalize prec emax m e false) = true.
Proof.
  intro H. destruct m as [|p|p]; [reflexivity| |lia].
  unfold binary_normalize, binary_round. destruct (shl_align _ _ _).
  apply binary_round_aux_pos.
Qed.

Lemma sf_pos_not_neg x : sf_pos x = true -> sf_not_neg x = true.
Proof. destruct x as [[]|[]| |[]]; cbn; congruence. Qed.

Lemma SFadd_not_neg x y : sf_not_neg x = true -> sf_not_neg y = true ->
  sf_not_neg (SF64add x y) = true.
Proof.
  unfold SF64add.
  destruct x as [[]|[]| |[] mx ex]; destruct y as [[]|[]| |[] my ey]; cbn [sf_not_neg];
    intros Hx Hy; try discriminate; try reflexivity.
  unfold SFadd. cbn [cond_Zopp]. apply sf_pos_not_neg, binary_normalize_pos. lia.
Qed.

Lemma SFmul_sq_not_neg x : sf_not_neg (SF64mul x x) = true.
Proof.
  unfold SF64mul. destruct x as [[]|[]| |[] mx ex]; try reflexivity;
    unfold SFmul; apply sf_pos_not_neg, binary_round_aux_pos.
Qed.

Lemma SFdiv_not_neg x y : sf_not_neg x = true -> sf_pos y = true ->
  sf_not_neg (SF64div x y) = true.
Proof.
  unfold SF64div.
  destruct x as [[]|[]| |[] mx ex]; destruct y as [[]|[]| |[] my ey]; cbn [sf_not_neg sf_pos];
    intros Hx Hy; try discriminate; try reflexivity.
  all: unfold SFdiv; destruct (SFdiv_core_binary _ _ _ _ _ _) as [[mz ez] lz];
    apply sf_pos_not_neg, binary_round_aux_pos.
Qed.

Lemma nn_add x y : nn x -> nn y -> nn (x + y)%float.
Proof. unfold nn. rewrite add_spec. apply SFadd_not_neg. Qed.

Lemma nn_sq x : nn (x * x)%float.
Proof. unfold nn. rewrite mul_spec. apply SFmul_sq_not_neg. Qed.

Lemma float_of_nat_pos n : sf_pos (Prim2SF (float_of_nat n)) = true.
Proof.
  unfold float_of_nat. rewrite of_uint63_spec. apply binary_normalize_pos.
  apply Uint63.to_Z_bounded.
Qed.

Lemma nn_div_nat x n : nn x -> nn (x / float_of_nat n)%float.
Proof. unfold nn. rewrite div_spec. intro H. apply SFdiv_not_neg; auto. apply float_of_nat_pos. Qed.

Lemma Forall_firstn_skipn {A} (P : A -> Prop) n l :
  Forall P l -> Forall P (firstn n l) /\ Forall P (skipn n l).
Proof.
  intro H. rewrite <- (firstn_skipn n l) in H. apply Forall_app in H. exact H.
Qed.

Lemma seq_sum_nn acc l : nn acc -> Forall nn l -> nn (seq_sum acc l).
Proof.
  revert acc; induction l as [|x l IH]; intros acc Ha Hl; cbn; auto.
  inversion Hl; subst. apply IH; auto. apply nn_add; auto.
Qed.

Lemma add8_nn r a : Forall nn r -> Forall nn a -> Forall nn (add8 r a).
Proof.
  revert a; induction r as [|x r IH]; intros a Hr Ha; cbn; auto.
  destruct a as [|y a]; auto. inversion Hr; inversion Ha; subst.
  constructor; auto. apply nn_add; auto.
Qed.

Lemma blocks_nn fuel r a : Forall nn r -> Forall nn a ->
  Forall nn (fst (blocks fuel r a)) /\ Forall nn (snd (blocks fuel r a)).
Proof.
  revert r a; induction fuel as [|f IH]; intros r a Hr Ha; cbn [blocks]; auto.
  destruct (8 <=? length a)%nat; cbn [fst snd]; auto.
  destruct (Forall_firstn_skipn _ 8 _ Ha). apply IH; auto. apply add8_nn; auto.
Qed.

Lemma nn_neg_zero : nn (-0)%float.
Proof. reflexivity. Qed.

Lemma pairwise_sum_nn fuel a : Forall nn a -> nn (pairwise_sum fuel a).
Proof.
  revert a; induction fuel as [|f IH]; intros a Ha; cbn [pairwise_sum].
  all: destruct (length a <? 8)%nat; [apply seq_sum_nn; auto; apply nn_neg_zero|].
  all: destruct (length a <=? 128)%nat; [|try reflexivity].
  all: try (destruct (Forall_firstn_skipn _ 8 _ Ha) as [H1 H2];
    destruct (blocks_nn (length a) _ _ H1 H2) as [B1 B2];
    destruct (blocks (length a) (firstn 8 a) (skipn 8 a)) as [r rest];
    cbn [fst snd] in B1, B2;
    destruct r as [|r0 [|r1 [|r2 [|r3 [|r4 [|r5 [|r6 [|r7 [|]]]]]]]]]; try reflexivity;
    repeat match goal with H : Forall nn (_ :: _) |- _ => inversion H; subst; clear H end;
    apply seq_sum_nn; auto; repeat apply nn_add; auto).
  destruct (Forall_firstn_skipn _ ((length a / 2 - (length a / 2) mod 8))%nat _ Ha).
  apply nn_add; apply IH; auto.
Qed.

Lemma umr_sum_nn a : Forall nn a -> nn (umr_sum a).
Proof. intro H. apply nn_add; [reflexivity|]. apply pairwise_sum_nn; auto. Qed.

Lemma np_var_nn a : nn (np_var a).
Proof.
  unfold np_var. apply nn_div_nat, umr_sum_nn.
  apply Forall_forall. intros y Hy. apply in_map_iff in Hy as [x [<- _]]. apply nn_sq.
Qed.

(* ---- comparisons ---- *)
Lemma not_neg_ltb_nonpos v t :
  sf_not_neg v = true -> SFleb t (S754_zero false) = true -> SFltb v t = false.
Proof.
  destruct v as [[]|[]| |[] mv ev]; destruct t as [[]|[]| |[] mt et]; cbn; congruence.
Qed.

Ltac cmp_cases :=
  repeat match goal with
  | H : context [Pos.compare_cont Eq ?a ?b] |- _ => change (Pos.compare_cont Eq a b) with (Pos.compare a b) in H
  | |- context [Pos.compare_cont Eq ?a ?b] => change (Pos.compare_cont Eq a b) with (Pos.compare a b)
  end;
  repeat match goal with
  | H : context [Z.compare ?a ?b] |- _ => destruct (Z.compare_spec a b); cbn [CompOpp] in *
  | |- context [Z.compare ?a ?b] => destruct (Z.compare_spec a b); cbn [CompOpp] in *
  | H : context [Pos.compare ?a ?b] |- _ => destruct (Pos.compare_spec a b); cbn [CompOpp] in *
  | |- context [Pos.compare ?a ?b] => destruct (Pos.compare_spec a b); cbn [CompOpp] in *
  end;
  try discriminate; try reflexivity; try lia.

Lemma SFltb_leb_trans a b c :
  SFltb a b = true -> SFleb b c = true -> SFltb a c = true.
Proof.
  unfold SFltb, SFleb.
  destruct a as [[]|[]| |[] ma ea]; destruct b as [[]|[]| |[] mb eb];
    destruct c as [[]|[]| |[] mc ec]; cbn [SFcompare]; intros H1 H2;
    try discriminate; try reflexivity.
  all: cmp_cases.
Qed.

Lemma SFleb_ltb_asym a b : SFleb b a = true -> SFltb a b = false.
Proof.
  unfold SFltb, SFleb.
  destruct a as [[]|[]| |[] ma ea]; destruct b as [[]|[]| |[] mb eb];
    cbn [SFcompare]; intros H; try discriminate; try reflexivity.
  all: cmp_cases.
Qed.


(* ------------------------------------------------------------------ *)
(** ** Monad and list lemmas *)


(** What no phase before the time advance changes. *)
Definition static_eq (e e' : Engine) : Prop :=
  config e' = config e /\ current_time e' = current_time e /\
  scenarios e' = scenarios e /\
  freelancer_behavior_model e' = freelancer_behavior_model e /\
  client_behavior_model e' = client_behavior_model e /\
  market_dynamics_model e' = market_dynamics_model e.

(** What phase 2 does not change. *)
Definition phase2_frame (e e' : Engine) : Prop :=
  static_eq e e' /\ transactions e' = transactions e /\
  contracts e' = contracts e /\ metrics_collector e' = metrics_collector e /\
  map fst (freelancers e') = map fst (freelancers e) /\
  map fst (clients e') = map fst (clients e) /\
  List.length (market_snapshots e') = List.length (market_snapshots e).

(** Every behaviour call among [evs] received the snapshot reference [ref]. *)
Definition refs_ok (ref : option nat) (evs : list Event) : Prop :=
  Forall (fun ev => behavior_ref ev = None \/ behavior_ref ev = Some ref) evs.

(** What phase 4 does not change. *)
Definition phase4_frame (e e' : Engine) : Prop :=
  static_eq e e' /\ transactions e' = transactions e /\
  metrics_collector e' = metrics_collector e /\
  market_snapshots e' = market_snapshots e.

Lemma bind_inv {A B} (m : M A) (k : A -> M B) e e' r :
  bind m k e = (e', r) ->
  (exists x, m e = (e', inl x) /\ r = inl x) \/
  (exists e1 a, m e = (e1, inr a) /\ k a e1 = (e', r)).
Proof.
  unfold bind. destruct (m e) as [e1 [x|a]]; intro H.
  - left. inversion H; subst. eauto.
  - right. eauto.
Qed.

Ltac split_bind H :=
  let x := fresh "x" in let e1 := fresh "e" in let a := fresh "a" in
  let Hm := fresh "Hm" in let Hk := fresh "Hk" in
  destruct (bind_inv _ _ _ _ _ H) as [[x [Hm Hk]]|[e1 [a [Hm Hk]]]]; clear H.

Lemma reraise_inv err e e' r :
  reraise err e = (e', r) -> e' = e /\ (r = inr tt <-> err = None).
Proof.
  destruct err as [x|]; cbn; intro H; inversion H; subst; split; auto;
    split; intro Hx; try discriminate; auto.
Qed.

Lemma update_nth_keys {V} i (v : V) (d : dict V) :
  map fst (update_nth i v d) = map fst d.
Proof.
  revert i; induction d as [|[k w] d IH]; intros [|i]; cbn; f_equal; auto.
Qed.

Lemma write_back_keys {V} (d : dict V) vs :
  map fst (write_back d vs) = map fst d.
Proof.
  revert vs; induction d as [|[k w] d IH]; intros [|v vs]; cbn; f_equal; auto.
Qed.

Lemma length_removelast_cons {A} (a : A) l :
  List.length (removelast (a :: l)) = List.length l.
Proof.
  revert a; induction l as [|b l IH]; intro a; cbn; auto.
  cbn in IH. rewrite <- (IH b). destruct l; reflexivity.
Qed.

Lemma write_back_market_state_length snaps ms :
  List.length (write_back_market_state snaps ms) = List.length snaps.
Proof.
  unfold write_back_market_state.
  destruct snaps as [|s snaps]; destruct ms as [m|]; try reflexivity.
  rewrite length_app, length_removelast_cons. cbn. lia.
Qed.

Lemma last_ref_length (l1 l2 : list MarketSnapshot) :
  List.length l1 = List.length l2 -> last_ref l1 = last_ref l2.
Proof.
  destruct l1, l2; cbn; intro H; try discriminate; auto.
Qed.

Lemma last_ref_app l s :
  last_ref (l ++ [s]) = Some (List.length l).
Proof.
  destruct l; cbn; auto. rewrite length_app. cbn. f_equal. lia.
Qed.

Lemma nth_error_key {V} (d : dict V) i k v :
  nth_error d i = Some (k, v) -> nth i (map fst d) ""%string = k.
Proof.
  revert i; induction d as [|[k' w] d IH]; intros [|i]; cbn; intro H;
    try discriminate.
  - inversion H; auto.
  - auto.
Qed.

Lemma map_nth_seq_id {A B} (f : A -> B) (l : list A) d :
  map (fun i => f (nth i l d)) (seq 0 (List.length l)) = map f l.
Proof.
  induction l as [|a l IH]; cbn; auto.
  f_equal. rewrite <- seq_shift, map_map. exact IH.
Qed.

Lemma filter_map_S (p : nat -> bool) l :
  filter p (map S l) = map S (filter (fun j => p (S j)) l).
Proof.
  induction l as [|a l IH]; cbn; auto. destruct (p (S a)); cbn; f_equal; auto.
Qed.

Lemma active_indices_cons sc scs t :
  active_indices (sc :: scs) t =
  (if fst (is_active sc t) then [0%nat] else []) ++ map S (active_indices scs t).
Proof.
  unfold active_indices. cbn [List.length seq filter nth_error].
  rewrite <- seq_shift, filter_map_S. destruct (fst (is_active sc t)); reflexivity.
Qed.

Lemma count_compliant_le (l : list Contract) :
  (List.length (filter (fun c => String.eqb
     (ComplianceStatus_value (sb988_compliant c)) "compliant") l) <= List.length l)%nat.
Proof.
  induction l as [|c l IH]; cbn; [lia|]. destruct (String.eqb _ _); cbn; lia.
Qed.

(** The compliance rate, a quotient of two counts with the numerator at
    most the denominator, never raises. *)
Lemma compliance_rate_ok e : exists r, _calculate_compliance_rate e = inr r.
Proof.
  unfold _calculate_compliance_rate.
  destruct (contracts e) as [|k ks] eqn:Hk; [eexists; reflexivity|].
  apply int_truediv_ok; [split; [lia|] | cbn [List.length]; lia].
  apply Nat2Z.inj_le. unfold values.
  rewrite <- (length_map snd (k :: ks)). apply count_compliant_le.
Qed.

(** X2: the compliance rate the engine computes is a float between 0.0 and
    1.0, including the 0.0 returned when there are no contracts. *)
Lemma compliance_rate_bounds e : exists r,
  _calculate_compliance_rate e = inr r /\
  (0.0 <=? r)%float = true /\ (r <=? 1.0)%float = true.
Proof.
  unfold _calculate_compliance_rate.
  destruct (contracts e) as [|k ks] eqn:Hk.
  - exists 0.0%float. repeat split.
  - apply int_truediv_unit; [split; [lia|] | cbn [List.length]; lia].
    apply Nat2Z.inj_le. unfold values.
    rewrite <- (length_map snd (k :: ks)). apply count_compliant_le.
Qed.

Lemma make_snapshot_ok e : exists s, make_snapshot e = inr s.
Proof.
  unfold make_snapshot. destruct (compliance_rate_ok e) as [r Hr]. rewrite Hr.
  eexists; reflexivity.
Qed.

(* ------------------------------------------------------------------ *)
(** ** Frame lemmas for the phases *)


Lemma static_eq_refl e : static_eq e e.
Proof. repeat split. Qed.

Lemma static_eq_trans e1 e2 e3 :
  static_eq e1 e2 -> static_eq e2 e3 -> static_eq e1 e3.
Proof.
  unfold static_eq; intros (?&?&?&?&?&?) (?&?&?&?&?&?).
  repeat split; congruence.
Qed.

Lemma phase1_inv e e1 r :
  _update_market_conditions e = (e1, r) ->
  static_eq e e1 /\ transactions e1 = transactions e /\
  metrics_collector e1 = metrics_collector e /\
  ((exists x, r = inl x /\ market_snapshots e1 = market_snapshots e /\
              trace e1 = trace e ++ [EvMarketDynamics]) \/
   (r = inr tt /\
    exists em s, static_eq e em /\ transactions em = transactions e /\
      (market_dynamics_model e = None ->
       freelancers em = freelancers e /\ clients em = clients e /\
       contracts em = contracts e) /\
      freelancers e1 = freelancers em /\ clients e1 = clients em /\
      contracts e1 = contracts em /\
      make_snapshot em = inr s /\
      market_snapshots e1 = market_snapshots e ++ [s] /\
      trace e1 = trace e ++ (match market_dynamics_model e with
                             | Some _ => [EvMarketDynamics] | None => [] end)
                         ++ [EvSnapshot])).
Proof.
  unfold _update_market_conditions, bind, get, modify, ret, lift_exn.
  destruct (market_dynamics_model e) as [mdm|] eqn:Hm.
  - unfold call_market_dynamics.
    destruct (mdm (freelancers (emit e EvMarketDynamics))
                  (clients (emit e EvMarketDynamics))
                  (contracts (emit e EvMarketDynamics))
                  (current_time (emit e EvMarketDynamics))
                  (rng (emit e EvMarketDynamics)))
      as [[[[fs cs] ks] g] err] eqn:Hc.
    destruct err as [x|]; cbn.
    + intro H; inversion H; subst; clear H.
      cbn. repeat split; auto. left. eauto.
    + destruct (make_snapshot_ok (set_reach (emit e EvMarketDynamics) fs cs ks g))
        as [s Hs].
      rewrite Hs. intro H; inversion H; subst; clear H.
      cbn. repeat split; auto. right. split; auto.
      exists (set_reach (emit e EvMarketDynamics) fs cs ks g), s.
      cbn. repeat split; auto; try (intro; discriminate).
      all: try discriminate.
      all: rewrite <- ?app_assoc; reflexivity.
  - destruct (make_snapshot_ok e) as [s Hs]. rewrite Hs.
    intro H; inversion H; subst; clear H. cbn.
    repeat split; auto. right. split; auto. exists e, s.
    repeat split; auto.
Qed.


Lemma phase2_frame_refl e : phase2_frame e e.
Proof. repeat split. Qed.

Lemma phase2_frame_trans e1 e2 e3 :
  phase2_frame e1 e2 -> phase2_frame e2 e3 -> phase2_frame e1 e3.
Proof.
  unfold phase2_frame; intros (?&?&?&?&?&?&?) (?&?&?&?&?&?&?).
  repeat split; try congruence; eapply static_eq_trans; eauto.
Qed.

Lemma freelancer_call_inv fb i e e' r :
  (i < List.length (freelancers e))%nat ->
  freelancer_call fb i e = (e', r) ->
  phase2_frame e e' /\
  trace e' = trace e ++ [EvFreelancerBehavior (nth i (map fst (freelancers e)) ""%string)
                           (last_ref (market_snapshots e))].
Proof.
  intros Hi. unfold freelancer_call.
  destruct (nth_error (freelancers e) i) as [[k f]|] eqn:Hn.
  2:{ apply nth_error_None in Hn. lia. }
  destruct (fb f _ _ _ _) as [[[[f' ms'] cls'] g'] err] eqn:Hc.
  intro H. apply reraise_inv in H as [-> _]. cbn.
  split.
  - repeat split; cbn; auto.
    + apply update_nth_keys.
    + apply write_back_keys.
    + apply write_back_market_state_length.
  - erewrite nth_error_key by exact Hn. reflexivity.
Qed.

Lemma client_call_inv cb i e e' r :
  (i < List.length (clients e))%nat ->
  client_call cb i e = (e', r) ->
  phase2_frame e e' /\
  trace e' = trace e ++ [EvClientBehavior (nth i (map fst (clients e)) ""%string)
                           (last_ref (market_snapshots e))].
Proof.
  intros Hi. unfold client_call.
  destruct (nth_error (clients e) i) as [[k c]|] eqn:Hn.
  2:{ apply nth_error_None in Hn. lia. }
  destruct (cb c _ _ _ _) as [[[[c' ms'] fls'] g'] err] eqn:Hc.
  intro H. apply reraise_inv in H as [-> _]. cbn.
  split.
  - repeat split; cbn; auto.
    + apply write_back_keys.
    + apply update_nth_keys.
    + apply write_back_market_state_length.
  - erewrite nth_error_key by exact Hn. reflexivity.
Qed.

Lemma for_each_freelancers_inv fb l e e' r :
  (forall i, In i l -> i < List.length (freelancers e))%nat ->
  for_each l (freelancer_call fb) e = (e', r) ->
  phase2_frame e e' /\
  exists j, trace e' = trace e ++
      map (fun i => EvFreelancerBehavior (nth i (map fst (freelancers e)) ""%string)
                      (last_ref (market_snapshots e))) (firstn j l) /\
    (r = inr tt -> j = List.length l).
Proof.
  revert e; induction l as [|i l IH]; intros e Hl H.
  - cbn in H. inversion H; subst. split; [apply phase2_frame_refl|].
    exists 0%nat. rewrite app_nil_r. auto.
  - cbn [for_each] in H. split_bind H.
    + destruct (freelancer_call_inv fb i e e' (inl x)) as [Hf Ht];
        [apply Hl; left; auto | exact Hm |].
      split; auto. exists 1%nat. cbn. split; auto. intro; congruence.
    + destruct (freelancer_call_inv fb i e e0 (inr a)) as [Hf Ht];
        [apply Hl; left; auto | exact Hm |].
      assert (Hlen : List.length (freelancers e0) = List.length (freelancers e)).
      { destruct Hf as (_&_&_&_&Hkf&_). rewrite <- (length_map fst), Hkf, length_map.
        reflexivity. }
      destruct (IH e0) as [Hf' [j [Ht' Hj]]]; [|exact Hk|].
      { intros i' Hi'. rewrite Hlen. apply Hl. right; auto. }
      split; [eapply phase2_frame_trans; eauto|].
      exists (S j). rewrite Ht', Ht, <- app_assoc. cbn.
      destruct Hf as (_&_&_&_&Hk'&_&Hs).
      rewrite Hk', (last_ref_length _ _ Hs). split; [reflexivity|].
      intro Hr. rewrite (Hj Hr). reflexivity.
Qed.

Lemma for_each_clients_inv cb l e e' r :
  (forall i, In i l -> i < List.length (clients e))%nat ->
  for_each l (client_call cb) e = (e', r) ->
  phase2_frame e e' /\
  exists j, trace e' = trace e ++
      map (fun i => EvClientBehavior (nth i (map fst (clients e)) ""%string)
                      (last_ref (market_snapshots e))) (firstn j l) /\
    (r = inr tt -> j = List.length l).
Proof.
  revert e; induction l as [|i l IH]; intros e Hl H.
  - cbn in H. inversion H; subst. split; [apply phase2_frame_refl|].
    exists 0%nat. rewrite app_nil_r. auto.
  - cbn [for_each] in H. split_bind H.
    + destruct (client_call_inv cb i e e' (inl x)) as [Hf Ht];
        [apply Hl; left; auto | exact Hm |].
      split; auto. exists 1%nat. cbn. split; auto. intro; congruence.
    + destruct (client_call_inv cb i e e0 (inr a)) as [Hf Ht];
        [apply Hl; left; auto | exact Hm |].
      assert (Hlen : List.length (clients e0) = List.length (clients e)).
      { destruct Hf as (_&_&_&_&_&Hkf&_). rewrite <- (length_map fst), Hkf, length_map.
        reflexivity. }
      destruct (IH e0) as [Hf' [j [Ht' Hj]]]; [|exact Hk|].
      { intros i' Hi'. rewrite Hlen. apply Hl. right; auto. }
      split; [eapply phase2_frame_trans; eauto|].
      exists (S j). rewrite Ht', Ht, <- app_assoc. cbn.
      destruct Hf as (_&_&_&_&_&Hk'&Hs).
      rewrite Hk', (last_ref_length _ _ Hs). split; [reflexivity|].
      intro Hr. rewrite (Hj Hr). reflexivity.
Qed.


Lemma refs_ok_app ref l1 l2 :
  refs_ok ref l1 -> refs_ok ref l2 -> refs_ok ref (l1 ++ l2).
Proof. intros H1 H2. apply Forall_app. auto. Qed.

Lemma refs_ok_no_behavior ref l :
  Forall (fun ev => is_behavior_event ev = false) l -> refs_ok ref l.
Proof.
  intro H. eapply Forall_impl; [|exact H]. intros [] Hb; cbn in *; auto; discriminate.
Qed.

Lemma refs_ok_freelancers {I} ref (g : I -> string) (l : list I) :
  refs_ok ref (map (fun i => EvFreelancerBehavior (g i) ref) l).
Proof.
  apply Forall_forall. intros ev Hin. apply in_map_iff in Hin as [i [<- _]].
  right. reflexivity.
Qed.

Lemma refs_ok_clients {I} ref (g : I -> string) (l : list I) :
  refs_ok ref (map (fun i => EvClientBehavior (g i) ref) l).
Proof.
  apply Forall_forall. intros ev Hin. apply in_map_iff in Hin as [i [<- _]].
  right. reflexivity.
Qed.

Lemma in_seq_lt n i : In i (seq 0 n) -> (i < n)%nat.
Proof. intro H. apply in_seq in H. lia. Qed.

Lemma phase2_inv e e2 r :
  _execute_agent_behaviors e = (e2, r) ->
  phase2_frame e e2 /\
  exists new, trace e2 = trace e ++ new /\
    refs_ok (last_ref (market_snapshots e)) new /\
    (r = inr tt ->
     new = (match freelancer_behavior_model e with
            | Some _ => map (fun k => EvFreelancerBehavior k (last_ref (market_snapshots e)))
                          (map fst (freelancers e))
            | None => [] end)
           ++ (match client_behavior_model e with
               | Some _ => map (fun k => EvClientBehavior k (last_ref (market_snapshots e)))
                             (map fst (clients e))
               | None => [] end)) /\
    (freelancer_behavior_model e = None -> client_behavior_model e = None ->
     e2 = e /\ r = inr tt).
Proof.
  unfold _execute_agent_behaviors. intro H.
  split_bind H; [cbn in Hm; discriminate|]. cbn in Hm. inversion Hm; subst e0 a; clear Hm.
  rename Hk into H.
  split_bind H.
  - (* the freelancer loop raised *)
    subst r.
    destruct (freelancer_behavior_model e) as [fb|] eqn:Hfb; [|discriminate].
    destruct (for_each_freelancers_inv fb (seq 0 (List.length (freelancers e))) e e2 (inl x))
      as [Hf [j [Ht _]]];
      [intros i Hi; apply in_seq_lt; exact Hi | exact Hm |].
    split; auto. eexists. split; [exact Ht|]. split.
    + apply refs_ok_freelancers.
    + split; [intro; congruence | intros; discriminate].
  - destruct a. rename Hk into H.
    assert (Hfr : phase2_frame e e0 /\ exists new1, trace e0 = trace e ++ new1 /\
              refs_ok (last_ref (market_snapshots e)) new1 /\
              new1 = match freelancer_behavior_model e with
                     | Some _ => map (fun k => EvFreelancerBehavior k (last_ref (market_snapshots e)))
                                   (map fst (freelancers e))
                     | None => [] end /\
              (freelancer_behavior_model e = None -> e0 = e)).
    { destruct (freelancer_behavior_model e) as [fb|] eqn:Hfb.
      - destruct (for_each_freelancers_inv fb (seq 0 (List.length (freelancers e))) e e0 (inr tt))
          as [Hf [j [Ht Hj]]];
          [intros i Hi; apply in_seq_lt; exact Hi | exact Hm |].
        rewrite (Hj eq_refl), firstn_all in Ht.
        split; auto. eexists. split; [exact Ht|]. split; [apply refs_ok_freelancers|].
        split; [|discriminate].
        rewrite <- (length_map fst (freelancers e)).
        apply (map_nth_seq_id (fun k => EvFreelancerBehavior k _)).
      - cbn in Hm. inversion Hm; subst. split; [apply phase2_frame_refl|].
        exists []. rewrite app_nil_r. repeat split; auto. constructor. }
    clear Hm.
    destruct Hfr as [Hf0 [new1 [Ht1 [Hr1 [Hn1 Hid1]]]]].
    split_bind H; [cbn in Hm; discriminate|]. cbn in Hm. inversion Hm; subst e1 a; clear Hm.
    rename Hk into H.
    destruct Hf0 as (Hs0&Htr0&Hk0&Hm0&Hfk0&Hck0&Hsl0).
    destruct Hs0 as (Hs1&Hs2&Hs3&Hfbm&Hcbm&Hs6).
    rewrite Hcbm in H.
    destruct (client_behavior_model e) as [cb|] eqn:Hcb.
    + destruct (for_each_clients_inv cb (seq 0 (List.length (clients e0))) e0 e2 r)
        as [Hf [j [Ht Hj]]];
        [intros i Hi; apply in_seq_lt; exact Hi | exact H |].
      split; [apply (phase2_frame_trans e e0 e2); [repeat split; congruence|exact Hf]|].
      rewrite Hck0, (last_ref_length _ _ Hsl0) in Ht.
      eexists (new1 ++ _).
      split; [rewrite Ht, Ht1, app_assoc; reflexivity|].
      split; [apply refs_ok_app; [exact Hr1 | apply refs_ok_clients]|].
      split; [|intros; discriminate].
      intro Hr. rewrite Hn1. f_equal.
      rewrite (Hj Hr), firstn_all.
      rewrite <- (length_map fst (clients e0)), Hck0, length_map.
      rewrite <- (length_map fst (clients e)).
      apply (map_nth_seq_id (fun k => EvClientBehavior k _)).
    + cbn in H. injection H as <- <-. split; [repeat split; congruence|].
      exists new1. rewrite app_nil_r. repeat split; auto.
Qed.


Lemma phase4_frame_refl e : phase4_frame e e.
Proof. repeat split. Qed.

Lemma phase4_frame_trans e1 e2 e3 :
  phase4_frame e1 e2 -> phase4_frame e2 e3 -> phase4_frame e1 e3.
Proof.
  unfold phase4_frame; intros (?&?&?&?) (?&?&?&?).
  repeat split; try congruence; eapply static_eq_trans; eauto.
Qed.

Lemma scenario_call_inv i sc e e' r :
  scenario_call i sc e = (e', r) ->
  phase4_frame e e' /\
  exists new, trace e' = trace e ++ new /\
    Forall (fun ev => is_behavior_event ev = false) new /\
    (r = inr tt -> new = if fst (is_active sc (current_time e)) then [EvScenario i] else []).
Proof.
  unfold scenario_call.
  destruct (is_active sc (current_time e)) as [act [x|]] eqn:Ha; cbn.
  - intro H; inversion H; subst. split; [apply phase4_frame_refl|].
    exists []. rewrite app_nil_r. repeat split; auto. intro; discriminate.
  - destruct act.
    + destruct (apply sc _ _ _ _ _) as [[[[fs cs] ks] g] err] eqn:Hc.
      intro H. apply reraise_inv in H as [-> _].
      split; [repeat split|].
      exists [EvScenario i]. cbn. repeat split; auto.
    + intro H; inversion H; subst. split; [apply phase4_frame_refl|].
      exists []. rewrite app_nil_r. repeat split; auto.
Qed.

Lemma apply_scenarios_from_inv scs i e e' r :
  apply_scenarios_from i scs e = (e', r) ->
  phase4_frame e e' /\
  exists new, trace e' = trace e ++ new /\
    Forall (fun ev => is_behavior_event ev = false) new /\
    (r = inr tt -> new = map EvScenario (map (Nat.add i) (active_indices scs (current_time e)))).
Proof.
  revert i e; induction scs as [|sc scs IH]; intros i e H; cbn [apply_scenarios_from] in H.
  - inversion H; subst. split; [apply phase4_frame_refl|].
    exists []. rewrite app_nil_r. repeat split; auto.
  - split_bind H.
    + destruct (scenario_call_inv i sc e e' (inl x) Hm) as [Hf [new [Ht [Hb _]]]].
      split; auto. exists new. repeat split; auto. intro; congruence.
    + destruct (scenario_call_inv i sc e e0 (inr a) Hm) as [Hf [new [Ht [Hb Hn]]]].
      destruct (IH (S i) e0 Hk) as [Hf' [new' [Ht' [Hb' Hn']]]].
      split; [eapply phase4_frame_trans; eauto|].
      exists (new ++ new'). split; [rewrite Ht', Ht, app_assoc; reflexivity|].
      split; [apply Forall_app; auto|].
      intro Hr. destruct a. rewrite (Hn eq_refl), (Hn' Hr).
      destruct Hf as ((_&Ht0&_)&_).
      rewrite Ht0, active_indices_cons.
      rewrite !map_app, !map_map.
      assert (Hext : forall l, map (fun x => EvScenario (S i + x)) l =
                               map (fun x => EvScenario (i + S x)) l).
      { intro l. apply map_ext. intro. f_equal. lia. }
      destruct (fst (is_active sc (current_time e))); cbn;
        rewrite ?Nat.add_0_r, Hext; reflexivity.
Qed.

Lemma phase3_eq e :
  _process_contracts e =
  (emit (set_reach e (freelancers e) (clients e)
           (map (fun kc => (fst kc, process_contract (date_of (current_time e)) (snd kc)))
              (contracts e))
           (rng e)) EvProcessContracts, inr tt).
Proof. reflexivity. Qed.

Lemma phase4_eq e :
  _apply_regulatory_scenarios e = apply_scenarios_from 0 (scenarios e) e.
Proof. reflexivity. Qed.

Lemma phase5_inv e e' r :
  _collect_step_metrics e = (e', r) ->
  static_eq e e' /\ freelancers e' = freelancers e /\ clients e' = clients e /\
  contracts e' = contracts e /\ transactions e' = transactions e /\
  market_snapshots e' = market_snapshots e /\ trace e' = trace e ++ [EvMetrics].
Proof.
  unfold _collect_step_metrics.
  destruct (mc_raises _ _ _ _ _ _); intro H; inversion H; subst; repeat split.
Qed.

Lemma datetime_add_inr t d t' : datetime_add t d = inr t' -> t' = t + d.
Proof. unfold datetime_add. destruct (_ && _); intro H; inversion H; auto. Qed.

(** Phase 6 either raises [OverflowError] and changes nothing, or moves
    the clock by [time_step]. *)
Lemma phase6_cases e :
  advance_time e = (e, inl "OverflowError"%string) \/
  (datetime_add (current_time e) (time_step (config e)) =
     inr (current_time e + time_step (config e)) /\
   advance_time e =
   (emit (set_current_time e (current_time e + time_step (config e))) EvAdvance, inr tt)).
Proof.
  unfold advance_time, datetime_add.
  destruct (_ && _); [right; split; reflexivity | left; reflexivity].
Qed.

Lemma map_add_0 l : map (Nat.add 0) l = l.
Proof. induction l; cbn; f_equal; auto. Qed.

Lemma behavior_ref_refs_ok ref ev :
  is_behavior_event ev = false -> refs_ok ref [ev].
Proof. intro H. apply refs_ok_no_behavior. constructor; auto. Qed.

Lemma step_inv e e' r :
  step e = (e', r) ->
  config e' = config e /\ scenarios e' = scenarios e /\
  freelancer_behavior_model e' = freelancer_behavior_model e /\
  client_behavior_model e' = client_behavior_model e /\
  market_dynamics_model e' = market_dynamics_model e /\
  (exists new, trace e' = trace e ++ new /\
               refs_ok (Some (List.length (market_snapshots e))) new) /\
  (r = inr tt ->
   exists e1, _update_market_conditions e = (e1, inr tt) /\
     trace e' = trace e ++ expected_step_events e e1 /\
     current_time e' = current_time e + time_step (config e) /\
     List.length (market_snapshots e') = S (List.length (market_snapshots e))).
Proof.
  unfold step. intro H.
  split_bind H.
  { (* phase 1 raised *)
    destruct (phase1_inv _ _ _ Hm) as ((?&?&?&?&?&?)&_&_&[[y [_ [_ Ht]]]|[Hr _]]);
      [|discriminate].
    repeat split; auto.
    all: try (intro; congruence).
    exists [EvMarketDynamics]. split; auto. apply behavior_ref_refs_ok. reflexivity. }
  destruct a. rename e0 into e1, Hm into H1, Hk into H.
  destruct (phase1_inv _ _ _ H1)
    as ((S1&S2&S3&S4&S5&S6)&_&_&[[y [Hy _]]|[_ [em [s1 (_&_&_&_&_&_&_&Hs1&Ht1)]]]]);
    [discriminate|].
  assert (Href : last_ref (market_snapshots e1) = Some (List.length (market_snapshots e)))
    by (rewrite Hs1; apply last_ref_app).
  assert (Hr1 : refs_ok (Some (List.length (market_snapshots e)))
                  ((match market_dynamics_model e with
                    | Some _ => [EvMarketDynamics] | None => [] end) ++ [EvSnapshot])).
  { apply refs_ok_no_behavior. destruct (market_dynamics_model e); repeat constructor. }
  split_bind H.
  { (* phase 2 raised *)
    destruct (phase2_inv _ _ _ Hm) as [((T1&T2&T3&T4&T5&T6)&_) [new2 [Ht2 [Hr2 _]]]].
    repeat split; try congruence.
    all: try (intro; congruence).
    exists (((match market_dynamics_model e with
                | Some _ => [EvMarketDynamics] | None => [] end) ++ [EvSnapshot]) ++ new2).
      split; [rewrite Ht2, Ht1, !app_assoc; reflexivity|].
      apply refs_ok_app; auto. rewrite <- Href. exact Hr2. }
  destruct a. rename e0 into e2, Hm into H2, Hk into H.
  destruct (phase2_inv _ _ _ H2)
    as [((T1&T2&T3&T4&T5&T6)&_&_&_&_&_&Hl2) [new2 [Ht2 [Hr2 [Hn2 _]]]]].
  specialize (Hn2 eq_refl).
  split_bind H; [rewrite phase3_eq in Hm; discriminate|].
  destruct a. rename e0 into e3, Hm into H3, Hk into H.
  rewrite phase3_eq in H3. injection H3 as <-.
  split_bind H.
  { (* phase 4 raised *)
    rewrite phase4_eq in Hm.
    destruct (apply_scenarios_from_inv _ _ _ _ _ Hm)
      as [((U1&U2&U3&U4&U5&U6)&_) [new4 [Ht4 [Hb4 _]]]].
    cbn in *. repeat split; try congruence.
    all: try (intro; congruence).
    exists (((match market_dynamics_model e with
                | Some _ => [EvMarketDynamics] | None => [] end) ++ [EvSnapshot])
              ++ new2 ++ [EvProcessContracts] ++ new4).
      split; [rewrite Ht4, Ht2, Ht1, !app_assoc; reflexivity|].
      apply refs_ok_app; auto. rewrite <- Href.
      apply refs_ok_app; auto. apply refs_ok_app.
      + apply behavior_ref_refs_ok. reflexivity.
      + apply refs_ok_no_behavior; auto. }
  destruct a. rename e0 into e4, Hm into H4, Hk into H.
  rewrite phase4_eq in H4.
  destruct (apply_scenarios_from_inv _ _ _ _ _ H4)
    as [((U1&U2&U3&U4&U5&U6)&_&_&Hs4) [new4 [Ht4 [Hb4 Hn4]]]].
  specialize (Hn4 eq_refl). cbn in U1, U2, U3, U4, U5, U6, Hs4, Ht4, Hn4.
  split_bind H.
  { (* phase 5 raised *)
    destruct (phase5_inv _ _ _ Hm) as ((V1&V2&V3&V4&V5&V6)&_&_&_&_&_&Ht5).
    repeat split; try congruence.
    all: try (intro; congruence).
    exists (((match market_dynamics_model e with
                | Some _ => [EvMarketDynamics] | None => [] end) ++ [EvSnapshot])
              ++ new2 ++ [EvProcessContracts] ++ new4 ++ [EvMetrics]).
      split; [rewrite Ht5, Ht4, Ht2, Ht1, !app_assoc; reflexivity|].
      apply refs_ok_app; auto. rewrite <- Href.
      apply refs_ok_app; auto. apply refs_ok_app.
      + apply behavior_ref_refs_ok. reflexivity.
      + apply refs_ok_app; [apply refs_ok_no_behavior; auto|].
        apply behavior_ref_refs_ok. reflexivity. }
  destruct a. rename e0 into e5, Hm into H5, Hk into H.
  destruct (phase5_inv _ _ _ H5) as ((V1&V2&V3&V4&V5&V6)&_&_&_&_&Hs5&Ht5).
  destruct (phase6_cases e5) as [H6|[_ H6]]; rewrite H6 in H; injection H as <- <-.
  { (* phase 6 raised *)
    repeat split; try congruence.
    all: try (intro; congruence).
    exists (((match market_dynamics_model e with
                | Some _ => [EvMarketDynamics] | None => [] end) ++ [EvSnapshot])
              ++ new2 ++ [EvProcessContracts] ++ new4 ++ [EvMetrics]).
      split; [rewrite Ht5, Ht4, Ht2, Ht1, !app_assoc; reflexivity|].
      apply refs_ok_app; auto. rewrite <- Href.
      apply refs_ok_app; auto. apply refs_ok_app.
      + apply behavior_ref_refs_ok. reflexivity.
      + apply refs_ok_app; [apply refs_ok_no_behavior; auto|].
        apply behavior_ref_refs_ok. reflexivity. }
  cbn.
  assert (Hev : trace e ++ expected_step_events e e1 =
                trace e5 ++ [EvAdvance]).
  { rewrite Ht5, Ht4, Ht2, Ht1, Hn2, Hn4, map_add_0, Href.
    unfold expected_step_events, active_indices.
    rewrite T3, S3, T2, S2, S4, S5.
    rewrite <- !app_assoc. reflexivity. }
  repeat split; try congruence.
  - exists (expected_step_events e e1). split; [congruence|].
    unfold expected_step_events.
    repeat apply refs_ok_app; try (apply refs_ok_no_behavior; repeat constructor; fail).
    + destruct (market_dynamics_model e); repeat constructor.
    + destruct (freelancer_behavior_model e); [|constructor].
      apply (refs_ok_freelancers _ (fun k => k)).
    + destruct (client_behavior_model e); [|constructor].
      apply (refs_ok_clients _ (fun k => k)).
    + apply refs_ok_no_behavior. apply Forall_forall. intros ev Hin.
      apply in_map_iff in Hin as [i [<- _]]. reflexivity.
  - intros _. exists e1. repeat split; auto; try congruence.
    rewrite Hs5, Hs4, Hl2, Hs1, length_app. cbn. lia.
Qed.

(* ------------------------------------------------------------------ *)
(** ** Arithmetic of the convergence predicate *)

Section Convergence_arith.
Local Open Scope Q_scope.

Lemma fold_left_Qplus_acc l a :
  fold_left Qplus l a == a + fold_left Qplus l 0.
Proof.
  revert a; induction l as [|x l IH]; intro a; cbn.
  - ring.
  - rewrite (IH (a + x)), (IH (0 + x)). ring.
Qed.

Lemma sum_Q_Qsum l : sum_Q l == Qsum l.
Proof.
  unfold sum_Q, Qsum. induction l as [|x l IH]; cbn; [reflexivity|].
  rewrite fold_left_Qplus_acc, IH. ring.
Qed.

End Convergence_arith.

Section Convergence_spec.

Lemma most_recent_skipn {A} n (l : list A) :
  most_recent n l = skipn (List.length l - n) l.
Proof. unfold most_recent. rewrite firstn_rev, rev_involutive. reflexivity. Qed.

Lemma length_most_recent {A} n (l : list A) :
  (n <= List.length l)%nat -> List.length (most_recent n l) = n.
Proof. intro H. rewrite most_recent_skipn, length_skipn. lia. Qed.

Lemma Forall2_map_compliance l qs :
  Forall2 (fun s q => compliance_rate s = q) l qs -> map compliance_rate l = qs.
Proof. induction 1; cbn; f_equal; auto. Qed.

Lemma Forall_eq_repeat {A} (l : list A) r :
  Forall (fun q => q = r) l -> l = repeat r (List.length l).
Proof. induction 1; cbn; f_equal; auto. Qed.

Lemma np_var_repeat_0 : np_var (repeat 0.0 10)%float = 0.0%float.
Proof. vm_compute. reflexivity. Qed.

Lemma np_var_repeat_1 : np_var (repeat 1.0 10)%float = 0.0%float.
Proof. vm_compute. reflexivity. Qed.

Lemma np_var_alternating_0_1 : np_var alternating_0_1 = 0.25%float.
Proof. vm_compute. reflexivity. Qed.

Lemma np_var_alternating_1_0 : np_var alternating_1_0 = 0.25%float.
Proof. vm_compute. reflexivity. Qed.

Lemma SFltb_leb a b : SFltb a b = true -> SFleb a b = true.
Proof. unfold SFltb, SFleb. destruct (SFcompare a b) as [[]|]; congruence. Qed.

Lemma float_ltb_asym x y : (x <? y)%float = true -> (y <? x)%float = false.
Proof.
  rewrite !ltb_spec. intro H. apply SFleb_ltb_asym, SFltb_leb, H.
Qed.

Lemma check_convergence_short e :
  (List.length (market_snapshots e) < 10)%nat -> _check_convergence e = false.
Proof.
  intro H. unfold _check_convergence.
  apply Nat.ltb_lt in H. rewrite H. reflexivity.
Qed.

Lemma check_convergence_long e :
  (10 <= List.length (market_snapshots e))%nat ->
  _check_convergence e =
  (np_var (map compliance_rate (most_recent 10 (market_snapshots e)))
     <? convergence_threshold (config e))%float.
Proof.
  intro H. unfold _check_convergence.
  apply Nat.ltb_ge in H. rewrite H. cbn zeta.
  rewrite most_recent_skipn. reflexivity.
Qed.

Lemma check_convergence_identical e r :
  (10 <= List.length (market_snapshots e))%nat ->
  Forall (fun s => compliance_rate s = r) (most_recent 10 (market_snapshots e)) ->
  _check_convergence e = (np_var (repeat r 10) <? convergence_threshold (config e))%float.
Proof.
  intros Hlen Hall. rewrite check_convergence_long by exact Hlen.
  assert (Hf : Forall (fun q => q = r) (map compliance_rate (most_recent 10 (market_snapshots e)))).
  { apply Forall_map. exact Hall. }
  apply Forall_eq_repeat in Hf.
  rewrite length_map, length_most_recent in Hf by exact Hlen.
  rewrite Hf. reflexivity.
Qed.

(** C3 (corrected): the convergence predicate is false while fewer than 10
    snapshots exist; otherwise it is the float comparison
    [np.var(rates) < threshold], with [rates] the compliance rates of the 10
    most recent snapshots and [np.var] numpy's binary64 variance (pairwise
    summation, every operation rounded).  Ten identical rates [r] converge
    exactly when [np.var([r]*10) < threshold]; for [r] = 0.0 or 1.0 that
    variance is 0.0, so every positive threshold converges (for other rates,
    such as 1/3, it is a tiny positive number).  Rates alternating between
    0.0 and 1.0 have variance exactly 0.25 and do not converge for any
    threshold below 0.25. *)
Theorem check_convergence_spec (e : Engine) :
  let snaps := market_snapshots e in
  let thr := convergence_threshold (config e) in
  ((List.length snaps < 10)%nat -> _check_convergence e = false) /\
  ((10 <= List.length snaps)%nat ->
     _check_convergence e =
     (np_var (map compliance_rate (most_recent 10 snaps)) <? thr)%float) /\
  (forall r, (10 <= List.length snaps)%nat ->
     Forall (fun s => compliance_rate s = r) (most_recent 10 snaps) ->
     _check_convergence e = (np_var (repeat r 10) <? thr)%float) /\
  (forall r, (r = 0.0 \/ r = 1.0)%float -> (10 <= List.length snaps)%nat ->
     Forall (fun s => compliance_rate s = r) (most_recent 10 snaps) ->
     (0.0 <? thr)%float = true -> _check_convergence e = true) /\
  (np_var alternating_0_1 = 0.25%float /\ np_var alternating_1_0 = 0.25%float) /\
  ((Forall2 (fun s q => compliance_rate s = q) (most_recent 10 snaps) alternating_0_1 \/
    Forall2 (fun s q => compliance_rate s = q) (most_recent 10 snaps) alternating_1_0) ->
     (thr <? 0.25)%float = true -> _check_convergence e = false).
Proof.
  cbn zeta. split; [|split; [|split; [|split; [|split]]]].
  - apply check_convergence_short.
  - apply check_convergence_long.
  - apply check_convergence_identical.
  - intros r Hr Hlen Hall Hthr.
    rewrite (check_convergence_identical e r Hlen Hall).
    destruct Hr as [->| ->]; [rewrite np_var_repeat_0 | rewrite np_var_repeat_1]; exact Hthr.
  - split; [exact np_var_alternating_0_1 | exact np_var_alternating_1_0].
  - intros Halt Hthr.
    destruct (Nat.lt_ge_cases (List.length (market_snapshots e)) 10) as [Hs|Hl].
    + apply check_convergence_short; exact Hs.
    + rewrite check_convergence_long by exact Hl.
      destruct Halt as [Ha|Ha]; apply Forall2_map_compliance in Ha; rewrite Ha;
        [rewrite np_var_alternating_0_1 | rewrite np_var_alternating_1_0];
        apply float_ltb_asym; exact Hthr.
Qed.

Lemma check_convergence_spec_witness :
  _check_convergence (snapshot_engine 0.001 (repeat (example_snapshot 1.0) 10)) = true /\
  _check_convergence (snapshot_engine 0.001 (map example_snapshot alternating_0_1)) = false.
Proof.
  split.
  - destruct (check_convergence_spec
                (snapshot_engine 0.001 (repeat (example_snapshot 1.0) 10)))
      as (_ & _ & _ & H4 & _).
    apply (H4 1.0%float).
    + right. reflexivity.
    + vm_compute. lia.
    + vm_compute. repeat (constructor; [reflexivity|]). constructor.
    + vm_compute. reflexivity.
  - destruct (check_convergence_spec
                (snapshot_engine 0.001 (map example_snapshot alternating_0_1)))
      as (_ & _ & _ & _ & _ & H6).
    apply H6.
    + left. vm_compute. repeat (constructor; [reflexivity|]). constructor.
    + vm_compute. reflexivity.
Defined.

(** C3, counterexample to the exact-variance reading: three contracts, one
    of them compliant, make every step's compliance rate [1/3]; after the
    ten steps of the January run the ten rates are identical, the threshold
    [1e-40] is positive, and the predicate is still false, because numpy's
    variance of ten copies of the binary64 value of [1/3] is [2**-108]. *)
Lemma check_convergence_spec_counterexample :
  let e := fst (run third_engine) in
  (0.0 <? convergence_threshold (config e))%float = true /\
  map compliance_rate (market_snapshots e) = repeat 0.3333333333333333%float 10 /\
  int_truediv 1 3 = inr 0.3333333333333333%float /\
  np_var (repeat 0.3333333333333333 10)%float = 0x1p-108%float /\
  _check_convergence e = false.
Proof. vm_compute. repeat split. Qed.

End Convergence_spec.

(* ------------------------------------------------------------------ *)
(** ** The phases of one step *)

(** C1: a [step] that returns normally makes exactly these calls, in this
    order: the market-dynamics model (if installed) and the snapshot append of
    phase 1; the freelancer strategy once per freelancer and the client
    strategy once per client, in mapping order (phase 2); contract processing
    (phase 3); each scenario active at the current time, in registration order
    (phase 4); metrics collection (phase 5); and the time advance by the
    configured step (phase 6). *)
Theorem step_six_phases (e e' : Engine) :
  step e = (e', inr tt) ->
  exists e1, _update_market_conditions e = (e1, inr tt) /\
    trace e' = trace e ++ expected_step_events e e1 /\
    current_time e' = current_time e + time_step (config e).
Proof.
  intro H. destruct (step_inv _ _ _ H) as (_&_&_&_&_&_&Hok).
  destruct (Hok eq_refl) as (e1 & H1 & Ht & Hc & _).
  exists e1. auto.
Qed.

Lemma step_six_phases_witness :
  exists e1, _update_market_conditions full_engine = (e1, inr tt) /\
    trace (fst (step full_engine)) =
      trace full_engine ++ expected_step_events full_engine e1 /\
    current_time (fst (step full_engine)) =
      current_time full_engine + time_step (config full_engine).
Proof.
  apply (step_six_phases full_engine (fst (step full_engine))).
  vm_compute. reflexivity.
Defined.

(** C10: whatever the outcome of [step], every call of a behavioural strategy
    it makes receives the snapshot at position [n], where [n] is the number
    of snapshots before the step, never [None]; and that position is the
    snapshot phase 1 appended. *)
Theorem step_behavior_snapshot (e e' : Engine) r :
  step e = (e', r) ->
  (exists new, trace e' = trace e ++ new /\
     Forall (fun ev => is_behavior_event ev = true ->
               behavior_ref ev = Some (Some (List.length (market_snapshots e)))) new) /\
  (forall e1, _update_market_conditions e = (e1, inr tt) ->
     exists s, market_snapshots e1 = market_snapshots e ++ [s]).
Proof.
  intro H. destruct (step_inv _ _ _ H) as (_&_&_&_&_&[new [Ht Hr]]&_).
  split.
  - exists new. split; auto.
    eapply Forall_impl; [|exact Hr]. intros ev [Hn|Hs] Hb; auto.
    destruct ev; discriminate.
  - intros e1 H1. destruct (phase1_inv _ _ _ H1) as (_&_&_&[[x [Hx _]]|[_ [em [s Hem]]]]);
      [discriminate|].
    exists s. tauto.
Qed.

Lemma step_behavior_snapshot_witness :
  (exists new, trace (fst (step full_engine)) = trace full_engine ++ new /\
     Forall (fun ev => is_behavior_event ev = true ->
               behavior_ref ev = Some (Some (List.length (market_snapshots full_engine)))) new) /\
  (forall e1, _update_market_conditions full_engine = (e1, inr tt) ->
     exists s, market_snapshots e1 = market_snapshots full_engine ++ [s]).
Proof.
  apply (step_behavior_snapshot full_engine (fst (step full_engine)) (snd (step full_engine))).
  vm_compute. reflexivity.
Defined.

(* ------------------------------------------------------------------ *)
(** ** Steps of an engine without strategies *)

Lemma step_no_strategies e e' r :
  no_strategies e -> step e = (e', r) ->
  no_strategies e' /\ config e' = config e /\
  (exists s, make_snapshot e = inr s /\
             market_snapshots e' = market_snapshots e ++ [s]) /\
  contracts e' = process_all (date_of (current_time e)) (contracts e) /\
  freelancers e' = freelancers e /\ clients e' = clients e /\
  transactions e' = transactions e /\
  (r = inr tt -> current_time e' = current_time e + time_step (config e)).
Proof.
  destruct e as [cfg t fs cs ks ts snaps mc scs fb cb mdm g tr].
  intros (Hs & Hf & Hc & Hm) H. cbn in Hs, Hf, Hc, Hm. subst.
  destruct (make_snapshot_ok (mkEngine cfg t fs cs ks ts snaps mc [] None None None g tr))
    as [s Hsn].
  unfold step, _update_market_conditions, bind, get, ret, modify, lift_exn in H.
  cbn - [make_snapshot advance_time] in H. rewrite Hsn in H.
  unfold bind, _collect_step_metrics in H. cbn - [advance_time] in H.
  destruct (mc_raises mc _ _ _ _ _) eqn:Hr; cbn - [advance_time] in H.
  - injection H as <- <-.
    unfold no_strategies; cbn; repeat split; try discriminate; try reflexivity.
    exists s; split; [exact Hsn | reflexivity].
  - unfold advance_time in H. cbn in H.
    destruct (datetime_add _ _) as [x|t'] eqn:Hd; injection H as <- <-;
      unfold no_strategies; cbn; repeat split; try discriminate; try reflexivity;
      try (exists s; split; [exact Hsn | reflexivity]).
    intros _. apply datetime_add_inr in Hd. exact Hd.
Qed.

Lemma make_snapshot_inv e s :
  make_snapshot e = inr s ->
  _calculate_compliance_rate e = inr (compliance_rate s) /\
  average_hourly_rate s = _calculate_average_hourly_rate e /\
  total_transaction_volume s = transaction_volume e.
Proof.
  unfold make_snapshot. destruct (_calculate_compliance_rate e); intro H;
    [discriminate|]. injection H as <-. auto.
Qed.

Lemma compliant_eqb cs :
  String.eqb (ComplianceStatus_value cs) "compliant" =
  match cs with C_COMPLIANT => true | _ => false end.
Proof. destruct cs; reflexivity. Qed.

Lemma active_eqb s :
  String.eqb (ContractStatus_value s) "active" =
  match s with ACTIVE => true | _ => false end.
Proof. destruct s; reflexivity. Qed.

Lemma process_contract_completes today c :
  process_contract today c =
  if completes_on today c then set_status c COMPLETED else c.
Proof.
  unfold process_contract, completes_on.
  destruct (end_date c) as [d|]; [|destruct (status c); reflexivity].
  rewrite active_eqb, Z.gtb_ltb. destruct (status c), (d <? today); reflexivity.
Qed.

Section Snapshot_fields.

Lemma compliance_rate_spec e :
  (contracts e = [] -> _calculate_compliance_rate e = inr 0.0%float) /\
  (contracts e <> [] ->
   _calculate_compliance_rate e =
   int_truediv (Z.of_nat (count_compliant (values (contracts e))))
     (Z.of_nat (List.length (contracts e)))).
Proof.
  unfold _calculate_compliance_rate, count_compliant.
  destruct (contracts e) as [|kc ks]; split; intro H; try congruence; try reflexivity.
  rewrite (filter_ext _ (fun c => match sb988_compliant c with
                                  | C_COMPLIANT => true | _ => false end)).
  - reflexivity.
  - intro c. apply compliant_eqb.
Qed.

Lemma average_hourly_rate_spec e :
  (freelancers e = [] -> _calculate_average_hourly_rate e = 0.0%float) /\
  (freelancers e <> [] ->
   _calculate_average_hourly_rate e =
   np_mean (map (fun f => Decimal___float__ (hourly_rate f)) (values (freelancers e)))).
Proof.
  unfold _calculate_average_hourly_rate.
  destruct (freelancers e) as [|kf fs] eqn:Hf; split; intro H; try congruence; reflexivity.
Qed.

(** C5 (corrected): without scenarios and behavioural models, each [step],
    whatever its outcome, appends exactly one snapshot.  Its compliance rate
    is 0.0 without contracts and otherwise the Python true division of the
    number of compliant contracts by the number of contracts (the binary64
    value nearest the quotient); its average hourly rate is 0.0 without
    freelancers and otherwise [np.mean] of the freelancers' rates, each
    converted to binary64 by [float(Decimal)], summed by numpy's pairwise
    summation and divided by the count, every operation rounded (all taken
    from the state the step started in).  This mean can differ from the
    exact arithmetic mean in its last bits. *)
Theorem step_snapshot_aggregates (e e' : Engine) r :
  no_strategies e -> step e = (e', r) ->
  exists s, market_snapshots e' = market_snapshots e ++ [s] /\
    (contracts e = [] -> compliance_rate s = 0.0%float) /\
    (contracts e <> [] ->
     int_truediv (Z.of_nat (count_compliant (values (contracts e))))
       (Z.of_nat (List.length (contracts e))) = inr (compliance_rate s)) /\
    (freelancers e = [] -> average_hourly_rate s = 0.0%float) /\
    (freelancers e <> [] ->
     average_hourly_rate s =
     np_mean (map (fun f => Decimal___float__ (hourly_rate f)) (values (freelancers e)))).
Proof.
  intros Hn H. destruct (step_no_strategies _ _ _ Hn H) as (_&_&[s [Hsn Hs]]&_).
  exists s. split; [exact Hs|].
  destruct (make_snapshot_inv _ _ Hsn) as (Hc & Ha & _).
  destruct (compliance_rate_spec e) as [C1 C2].
  destruct (average_hourly_rate_spec e) as [A1 A2].
  split; [|split; [|split]].
  - intro He. rewrite (C1 He) in Hc. injection Hc as <-. reflexivity.
  - intro He. rewrite <- (C2 He). exact Hc.
  - intro He. rewrite Ha. exact (A1 He).
  - intro He. rewrite Ha. exact (A2 He).
Qed.

Lemma step_snapshot_aggregates_witness :
  exists s, market_snapshots (fst (step (populated_engine (Some 42%Z) 0%Z))) = [s] /\
    compliance_rate s = 1.0%float /\ average_hourly_rate s = 60.0%float.
Proof.
  destruct (step_snapshot_aggregates (populated_engine (Some 42%Z) 0%Z)
              (fst (step (populated_engine (Some 42%Z) 0%Z)))
              (snd (step (populated_engine (Some 42%Z) 0%Z))))
    as (s & Hs & _ & C2 & _ & A2).
  - unfold no_strategies. vm_compute. repeat split.
  - vm_compute. reflexivity.
  - exists s. split; [rewrite Hs; reflexivity|]. split.
    + specialize (C2 ltac:(vm_compute; discriminate)).
      match type of C2 with ?l = _ =>
        replace l with (@inr string float 1.0%float) in C2 by (vm_compute; reflexivity) end.
      injection C2 as <-. reflexivity.
    + rewrite A2 by (vm_compute; discriminate). vm_compute. reflexivity.
Defined.

(** C5, counterexample to the exact-mean reading: three freelancers with
    hourly rates 0.1, 0.2 and 0.3 and no strategies.  The snapshot of one
    step records the average hourly rate 0.20000000000000004, not the float
    0.2 of the exact mean. *)
Lemma step_snapshot_aggregates_counterexample :
  no_strategies rates_engine /\
  map hourly_rate (values (freelancers rates_engine)) = [1 # 10; 2 # 10; 3 # 10]%Q /\
  map average_hourly_rate (market_snapshots (fst (step rates_engine))) =
    [0.20000000000000004%float] /\
  Decimal___float__ (Qsum (map hourly_rate (values (freelancers rates_engine))) / 3)%Q
    = 0.2%float /\
  (0.20000000000000004 =? 0.2)%float = false.
Proof. unfold no_strategies. vm_compute. repeat split. Qed.

End Snapshot_fields.

(** C6: the snapshot appended by phase 1 records as transaction volume the
    sum of the amounts of exactly the logged transactions dated on the
    current day. *)
Theorem snapshot_transaction_volume (e e1 : Engine) :
  _update_market_conditions e = (e1, inr tt) ->
  exists s, market_snapshots e1 = market_snapshots e ++ [s] /\
    total_transaction_volume s ==
    Qsum (map amount
      (filter (fun t => date_of (transaction_date t) =? date_of (current_time e))%Z
         (transactions e))).
Proof.
  intro H. destruct (phase1_inv _ _ _ H) as (_&_&_&[[x [Hx _]]|[_ [em [s Hem]]]]);
    [discriminate|].
  destruct Hem as ((_&Ht&_)&Htr&_&_&_&_&Hsn&Hs&_).
  exists s. split; [exact Hs|].
  destruct (make_snapshot_inv _ _ Hsn) as (_&_&->). unfold transaction_volume.
  rewrite sum_Q_Qsum, Ht, Htr. reflexivity.
Qed.

Lemma snapshot_transaction_volume_witness :
  exists s, market_snapshots (fst (_update_market_conditions
              (with_transactions (populated_engine (Some 42%Z) 0%Z) example_transactions))) = [s] /\
    total_transaction_volume s == 30.
Proof.
  destruct (snapshot_transaction_volume
              (with_transactions (populated_engine (Some 42%Z) 0%Z) example_transactions)
              (fst (_update_market_conditions
                 (with_transactions (populated_engine (Some 42%Z) 0%Z) example_transactions))))
    as (s & Hs & Hv).
  - vm_compute. reflexivity.
  - exists s. split; [rewrite Hs; reflexivity|].
    rewrite Hv. vm_compute. reflexivity.
Defined.


(* ------------------------------------------------------------------ *)
(** ** The main loop *)

(** A property of steps that holds of the whole loop. *)
Lemma run_loop_rel (P : Engine -> Prop) (R : Engine -> Engine -> Prop) :
  (forall e, R e e) -> (forall a b c, R a b -> R b c -> R a c) ->
  (forall e e' r, P e -> step e = (e', r) -> P e' /\ R e e') ->
  forall fuel it e e' r, P e -> run_loop fuel it e = (e', r) -> P e' /\ R e e'.
Proof.
  intros Hrefl Htrans Hstep. induction fuel as [|fuel IH];
    intros it e e' r HP H; cbn [run_loop] in H.
  - unfold ret in H. injection H as <- _. auto.
  - split_bind H; unfold get in Hm; inversion Hm; subst; clear Hm.
    destruct (_ && _).
    + split_bind Hk.
      * destruct (Hstep _ _ _ HP Hm). auto.
      * destruct (Hstep _ _ _ HP Hm) as [HP1 HR1].
        split_bind Hk0; unfold get in Hm0; inversion Hm0; subst; clear Hm0.
        destruct (_check_convergence _).
        -- unfold ret in Hk. injection Hk as <- _. auto.
        -- destruct (IH _ _ _ _ HP1 Hk) as [HP2 HR2]. eauto.
    + unfold ret in Hk. injection Hk as <- _. auto.
Qed.

(* ------------------------------------------------------------------ *)
(** ** Contract lifecycle *)

Lemma process_all_complete_due today ks :
  process_all today ks = complete_due today ks.
Proof.
  apply map_ext. intros [k c]. cbn. rewrite process_contract_completes. reflexivity.
Qed.

Lemma keeps_completed_refl ks : keeps_completed ks ks.
Proof. induction ks; constructor; auto. Qed.

Lemma keeps_completed_trans ks1 ks2 ks3 :
  keeps_completed ks1 ks2 -> keeps_completed ks2 ks3 -> keeps_completed ks1 ks3.
Proof.
  intro H12. revert ks3.
  induction H12 as [|kc1 kc2 l1 l2 [Hk1 Hs1] _ IH]; intros ks3 H23.
  - inversion H23. constructor.
  - inversion H23 as [|? kc3 ? l3 [Hk2 Hs2] H23']; subst.
    constructor; [split; [congruence|auto]|apply IH; exact H23'].
Qed.

Lemma complete_due_keeps today ks : keeps_completed ks (complete_due today ks).
Proof.
  induction ks as [|[k c] ks IH]; constructor; auto. cbn. split; auto.
  intro Hc. destruct (completes_on today c); [reflexivity|exact Hc].
Qed.

(** C4: phase 3 completes exactly the ACTIVE contracts whose end date is
    strictly before the current date and touches nothing else; a step of an
    engine without scenarios and behavioural models changes contracts in no
    other way, whatever its outcome; and in a loop of such steps a COMPLETED
    contract stays COMPLETED. *)
Theorem contract_lifecycle :
  (forall e, exists e', _process_contracts e = (e', inr tt) /\
     contracts e' = complete_due (date_of (current_time e)) (contracts e) /\
     freelancers e' = freelancers e /\ clients e' = clients e /\
     transactions e' = transactions e /\
     market_snapshots e' = market_snapshots e) /\
  (forall e e' r, no_strategies e -> step e = (e', r) ->
     contracts e' = complete_due (date_of (current_time e)) (contracts e)) /\
  (forall fuel it e e' r, no_strategies e -> run_loop fuel it e = (e', r) ->
     keeps_completed (contracts e) (contracts e')).
Proof.
  split; [|split].
  - intro e. eexists. split; [apply phase3_eq|]. cbn.
    rewrite <- process_all_complete_due. repeat split.
  - intros e e' r Hn H. destruct (step_no_strategies _ _ _ Hn H) as (_&_&_&Hk&_).
    rewrite Hk. apply process_all_complete_due.
  - intros fuel it e e' r Hn H.
    apply (run_loop_rel no_strategies
             (fun e e' => keeps_completed (contracts e) (contracts e'))) in H; auto.
    + tauto.
    + intro. apply keeps_completed_refl.
    + intros. eapply keeps_completed_trans; eauto.
    + intros e0 e0' r0 Hn0 H0.
      destruct (step_no_strategies _ _ _ Hn0 H0) as (Hn1&_&_&Hk&_).
      split; auto. rewrite Hk, process_all_complete_due. apply complete_due_keeps.
Qed.

Lemma contract_lifecycle_witness :
  map (fun kc => status (snd kc))
    (contracts (fst (step (set_current_time (populated_engine (Some 42) 0) (mk_datetime 2024 1 5))))) = [ACTIVE] /\
  map (fun kc => status (snd kc))
    (contracts (fst (step (set_current_time (populated_engine (Some 42) 0) (mk_datetime 2024 1 6))))) = [COMPLETED] /\
  keeps_completed (contracts (fst (step (set_current_time (populated_engine (Some 42) 0) (mk_datetime 2024 1 6)))))
    (contracts (fst (run_loop 1000 1 (fst (step (set_current_time (populated_engine (Some 42) 0) (mk_datetime 2024 1 6))))))).
Proof.
  destruct contract_lifecycle as (_ & P2 & P3).
  split; [|split].
  - rewrite (P2 (set_current_time (populated_engine (Some 42) 0) (mk_datetime 2024 1 5))
               (fst (step (set_current_time (populated_engine (Some 42) 0) (mk_datetime 2024 1 5)))) (snd (step (set_current_time (populated_engine (Some 42) 0) (mk_datetime 2024 1 5))))).
    + vm_compute. reflexivity.
    + unfold no_strategies. vm_compute. repeat split.
    + vm_compute. reflexivity.
  - rewrite (P2 (set_current_time (populated_engine (Some 42) 0) (mk_datetime 2024 1 6))
               (fst (step (set_current_time (populated_engine (Some 42) 0) (mk_datetime 2024 1 6)))) (snd (step (set_current_time (populated_engine (Some 42) 0) (mk_datetime 2024 1 6))))).
    + vm_compute. reflexivity.
    + unfold no_strategies. vm_compute. repeat split.
    + vm_compute. reflexivity.
  - apply (P3 1000%nat 1 (fst (step (set_current_time (populated_engine (Some 42) 0) (mk_datetime 2024 1 6))))
             (fst (run_loop 1000 1 (fst (step (set_current_time (populated_engine (Some 42) 0) (mk_datetime 2024 1 6))))))
             (snd (run_loop 1000 1 (fst (step (set_current_time (populated_engine (Some 42) 0) (mk_datetime 2024 1 6))))))).
    + unfold no_strategies. vm_compute. repeat split.
    + vm_compute. reflexivity.
Defined.

(* ------------------------------------------------------------------ *)
(** ** The loop of [run] *)

Lemma run_loop_sound fuel it e e' n :
  (max_iterations (config e) <= Z.of_nat fuel + it)%Z ->
  run_loop fuel it e = (e', inr n) -> loop_runs it e e' n.
Proof.
  revert it e. induction fuel as [|fuel IH]; intros it e Hf H; cbn [run_loop] in H.
  - unfold ret in H. injection H as <- <-. apply loop_stop.
    unfold loop_guard. lia.
  - unfold bind at 1, get in H.
    destruct (_ && _) eqn:Hg.
    + apply andb_prop in Hg as [Hg1 Hg2].
      apply Z.leb_le in Hg1. apply Z.ltb_lt in Hg2.
      assert (HG : loop_guard it e) by (split; auto).
      destruct (bind_inv _ _ _ _ _ H) as [[x [Hs Hx]]|[e1 [[] [Hs Hk]]]];
        [discriminate|].
      destruct (step_inv _ _ _ Hs) as (Hc & _).
      unfold bind, get in Hk.
      destruct (_check_convergence e1) eqn:Hcv.
      * unfold ret in Hk. injection Hk as <- <-. apply loop_converged; auto.
      * eapply loop_next; eauto. apply IH; [rewrite Hc; lia|exact Hk].
    + unfold ret in H. injection H as <- <-. apply loop_stop.
      unfold loop_guard. intros [Hg1 Hg2].
      apply Z.leb_le in Hg1. apply Z.ltb_lt in Hg2. rewrite Hg1, Hg2 in Hg.
      discriminate.
Qed.

Lemma count_init_app l1 l2 : count_init (l1 ++ l2) = (count_init l1 + count_init l2)%nat.
Proof. unfold count_init. rewrite filter_app, length_app. reflexivity. Qed.

Lemma count_init_map {A} (f : A -> Event) l :
  (forall a, f a <> EvInitializePopulation) -> count_init (map f l) = 0%nat.
Proof.
  intro Hf. induction l as [|a l IH]; [reflexivity|].
  change (map f (a :: l)) with ([f a] ++ map f l).
  rewrite count_init_app, IH. unfold count_init. cbn.
  destruct (f a) eqn:Ha; try reflexivity. exfalso. exact (Hf a Ha).
Qed.

Lemma count_init_expected e e1 : count_init (expected_step_events e e1) = 0%nat.
Proof.
  unfold expected_step_events. rewrite !count_init_app.
  rewrite (count_init_map EvScenario) by discriminate.
  destruct (market_dynamics_model e), (freelancer_behavior_model e),
    (client_behavior_model e);
    rewrite ?(count_init_map (fun k => EvFreelancerBehavior k _)) by discriminate;
    rewrite ?(count_init_map (fun k => EvClientBehavior k _)) by discriminate;
    reflexivity.
Qed.

Lemma loop_runs_frame it e e' n :
  loop_runs it e e' n ->
  config e' = config e /\ count_init (trace e') = count_init (trace e) /\ it <= n.
Proof.
  induction 1 as [it e Hg|it e e1 Hg Hs Hc|it e e1 e' n Hg Hs Hc _ IH].
  - repeat split. lia.
  - destruct (step_inv _ _ _ Hs) as (Hcf&_&_&_&_&_&Hok).
    destruct (Hok eq_refl) as (e2 & _ & Ht & _).
    rewrite Ht, count_init_app, count_init_expected. split; [auto|split; lia].
  - destruct (step_inv _ _ _ Hs) as (Hcf&_&_&_&_&_&Hok).
    destruct (Hok eq_refl) as (e2 & _ & Ht & _).
    destruct IH as (IH1 & IH2 & IH3).
    rewrite IH2, Ht, count_init_app, count_init_expected. split; [congruence|split; lia].
Qed.

Lemma jan_dates :
  mk_datetime 2024 1 10 = mk_datetime 2024 1 1 + 9 * US_PER_DAY /\
  mk_datetime 2024 1 11 = mk_datetime 2024 1 1 + 10 * US_PER_DAY.
Proof. vm_compute. split; reflexivity. Qed.

Lemma loop_runs_jan it e e' n :
  loop_runs it e e' n ->
  (exists s, config e = jan_config s) ->
  current_time e = mk_datetime 2024 1 1 + it * US_PER_DAY ->
  List.length (market_snapshots e) = Z.to_nat it ->
  0 <= it <= 10 ->
  n = 10 /\ current_time e' = mk_datetime 2024 1 11.
Proof.
  destruct jan_dates as [Jend Jfin].
  assert (HD : US_PER_DAY = 86400000000) by reflexivity.
  induction 1 as [it e Hg|it e e1 Hg Hs Hc|it e e1 e' n Hg Hs Hc _ IH];
    intros [s Hcfg] Ht Hl Hit.
  - unfold loop_guard in Hg. rewrite Hcfg in Hg. cbn [cfg_end_date max_iterations jan_config] in Hg.
    assert (it = 10).
    { destruct (Z.eq_dec it 10); auto. exfalso. apply Hg. rewrite Ht, Jend. lia. }
    subst. split; [reflexivity|congruence].
  - unfold loop_guard in Hg. rewrite Hcfg in Hg. cbn [cfg_end_date max_iterations jan_config] in Hg.
    destruct (step_inv _ _ _ Hs) as (Hcf&_&_&_&_&_&Hok).
    destruct (Hok eq_refl) as (e2 & _ & _ & Htime & Hlen).
    assert (Hge : (10 <= List.length (market_snapshots e1))%nat).
    { destruct (Nat.lt_ge_cases (List.length (market_snapshots e1)) 10) as [Hlt|]; auto.
      rewrite check_convergence_short in Hc by exact Hlt. discriminate. }
    rewrite Ht, Jend in Hg.
    assert (it = 9) by lia. subst. split; [reflexivity|].
    rewrite Htime, Ht, Hcfg, Jfin. cbn [time_step jan_config]. unfold timedelta_days. lia.
  - unfold loop_guard in Hg. rewrite Hcfg in Hg. cbn [cfg_end_date max_iterations jan_config] in Hg.
    destruct (step_inv _ _ _ Hs) as (Hcf&_&_&_&_&_&Hok).
    destruct (Hok eq_refl) as (e2 & _ & _ & Htime & Hlen).
    rewrite Ht, Jend in Hg.
    apply IH.
    + exists s. congruence.
    + rewrite Htime, Ht, Hcfg. cbn [time_step jan_config]. unfold timedelta_days. lia.
    + rewrite Hlen, Hl. lia.
    + lia.
Qed.

(** C2: [run] calls [initialize_population] once, then runs the loop of the
    spec from iteration count 0 ([loop_runs]: [step] while the current time is
    at most the end time and the count below the maximum, the count
    incremented after each step, stopping early on convergence), and returns
    the results of the final state.  For the configuration from 2024-01-01 to
    2024-01-10 with a one-day step and at most 1000 iterations, started
    without snapshots, it makes exactly 10 steps and ends at 2024-01-11. *)
Theorem run_loop_spec (e e' : Engine) res n :
  run e = (e', inr (res, n)) ->
  (exists e0, initialize_population e = (e0, inr tt) /\
     trace e0 = trace e ++ [EvInitializePopulation] /\
     loop_runs 0 e0 e' n) /\
  count_init (trace e') = S (count_init (trace e)) /\
  _generate_results e' = inr res /\
  ((exists s, config e = jan_config s) ->
   current_time e = mk_datetime 2024 1 1 -> market_snapshots e = [] ->
   n = 10 /\ current_time e' = mk_datetime 2024 1 11).
Proof.
  intro H. unfold run in H.
  destruct (bind_inv _ _ _ _ _ H) as [[x [Hx _]]|[e0 [[] [Hi H1]]]];
    [discriminate|]. clear H.
  assert (He0 : e0 = emit e EvInitializePopulation)
    by (unfold initialize_population, modify in Hi; congruence).
  unfold bind at 1, get in H1.
  destruct (bind_inv _ _ _ _ _ H1) as [[x [Hx Hr]]|[e2 [m [Hl H2]]]];
    [discriminate|]. clear H1.
  unfold bind, get, ret, lift_exn in H2.
  destruct (_generate_results e2) as [y|r0] eqn:Hgen; [discriminate|].
  injection H2 as <- <- <-.
  assert (Hloop : loop_runs 0 e0 e2 m).
  { apply (run_loop_sound (Z.to_nat (max_iterations (config e0)))); auto. lia. }
  destruct (loop_runs_frame _ _ _ _ Hloop) as (Hc & Hcount & _).
  split; [|split; [|split]].
  - exists e0. split; auto. split; auto. subst. reflexivity.
  - rewrite Hcount, He0. cbn [trace emit]. rewrite count_init_app. cbn. lia.
  - exact Hgen.
  - intros Hcfg Ht Hs. subst e0.
    apply (loop_runs_jan _ _ _ _ Hloop); cbn [config current_time market_snapshots emit].
    + exact Hcfg.
    + rewrite Ht. lia.
    + rewrite Hs. reflexivity.
    + lia.
Qed.

Lemma run_loop_spec_witness :
  count_init (trace (fst (run full_engine))) = 1%nat /\
  current_time (fst (run full_engine)) = mk_datetime 2024 1 11 /\
  exists res, snd (run full_engine) = inr (res, 10) /\
    _generate_results (fst (run full_engine)) = inr res.
Proof.
  destruct (run full_engine) as [e' [x|[res n]]] eqn:Hr;
    [vm_compute in Hr; discriminate|].
  destruct (run_loop_spec full_engine e' res n Hr) as (_ & Hc & Hg & Hj).
  destruct (Hj (ex_intro _ (Some 42) eq_refl) eq_refl eq_refl) as [-> Ht].
  cbn [fst snd]. split; [|split].
  - rewrite Hc. vm_compute. reflexivity.
  - exact Ht.
  - exists res. split; [reflexivity | exact Hg].
Defined.

(* ------------------------------------------------------------------ *)
(** ** Exceptions *)

Lemma bind_raise {A B} (m : M A) (k : A -> M B) e e' x :
  m e = (e', inl x) -> bind m k e = (e', inl x).
Proof. unfold bind. intro H. rewrite H. reflexivity. Qed.

Lemma loop_guard_true it e :
  loop_guard it e ->
  (current_time e <=? cfg_end_date (config e)) && (it <? max_iterations (config e)) = true.
Proof.
  intros [H1 H2]. apply andb_true_intro. split; [apply Z.leb_le|apply Z.ltb_lt]; auto.
Qed.

(** C8: when [step] raises, the exception comes from one of the phases that
    call injected code (phase 1, 2, 4 or 5), or it is the [OverflowError] of
    phase 6 when the clock would pass [datetime.max]; the final state is the
    one the raising phase left, started from the state the earlier phases of
    the step left: nothing is rolled back.  The loop of [run] neither catches nor
    retries it: the loop, and [run] when it is the first step, end with that
    same exception and state. *)
Theorem step_error_propagates (e e' : Engine) (x : Exn) :
  step e = (e', inl x) ->
  (_update_market_conditions e = (e', inl x) \/
   (exists e1, _update_market_conditions e = (e1, inr tt) /\
      _execute_agent_behaviors e1 = (e', inl x)) \/
   (exists e1 e2 e3, _update_market_conditions e = (e1, inr tt) /\
      _execute_agent_behaviors e1 = (e2, inr tt) /\
      _process_contracts e2 = (e3, inr tt) /\
      _apply_regulatory_scenarios e3 = (e', inl x)) \/
   (exists e1 e2 e3 e4, _update_market_conditions e = (e1, inr tt) /\
      _execute_agent_behaviors e1 = (e2, inr tt) /\
      _process_contracts e2 = (e3, inr tt) /\
      _apply_regulatory_scenarios e3 = (e4, inr tt) /\
      _collect_step_metrics e4 = (e', inl x)) \/
   (exists e1 e2 e3 e4, _update_market_conditions e = (e1, inr tt) /\
      _execute_agent_behaviors e1 = (e2, inr tt) /\
      _process_contracts e2 = (e3, inr tt) /\
      _apply_regulatory_scenarios e3 = (e4, inr tt) /\
      _collect_step_metrics e4 = (e', inr tt) /\
      advance_time e' = (e', inl x) /\ x = "OverflowError"%string)) /\
  (forall fuel it, loop_guard it e -> run_loop (S fuel) it e = (e', inl x)) /\
  (forall e0, initialize_population e0 = (e, inr tt) -> loop_guard 0 e ->
     run e0 = (e', inl x)).
Proof.
  intro H.
  assert (Hloop : forall fuel it, loop_guard it e -> run_loop (S fuel) it e = (e', inl x)).
  { intros fuel it Hg. cbn [run_loop]. unfold bind at 1, get.
    rewrite (loop_guard_true _ _ Hg). apply bind_raise. exact H. }
  split; [|split; [exact Hloop|]].
  - unfold step in H.
    split_bind H; [left; congruence|]. destruct a. rename e0 into e1, Hm into H1.
    split_bind Hk; [right; left; exists e1; split; congruence|].
    destruct a. rename e0 into e2, Hm into H2.
    split_bind Hk0; [rewrite phase3_eq in Hm; discriminate|].
    destruct a. rename e0 into e3, Hm into H3.
    split_bind Hk;
      [right; right; left; exists e1, e2, e3; repeat split; congruence|].
    destruct a. rename e0 into e4, Hm into H4.
    split_bind Hk0;
      [right; right; right; left; exists e1, e2, e3, e4; repeat split; congruence|].
    destruct a. rename e0 into e5, Hm into H5.
    destruct (phase6_cases e5) as [H6|[_ H6]]; rewrite H6 in Hk; [|discriminate].
    injection Hk as <- <-.
    right; right; right; right. exists e1, e2, e3, e4.
    repeat split; try exact H6; congruence.
  - intros e0 Hi Hg. unfold run.
    unfold bind at 1. rewrite Hi. unfold bind at 1, get.
    destruct (Z.to_nat (max_iterations (config e))) as [|fuel] eqn:Hf.
    + destruct Hg as [_ Hg]. lia.
    + apply bind_raise. apply Hloop. exact Hg.
Qed.

Lemma step_error_propagates_witness :
  snd (run (add_scenario failing_scenario (populated_engine (Some 42) 0))) =
    inl "ValueError"%string /\
  map (fun kc => status (snd kc))
    (contracts (fst (run (add_scenario failing_scenario (populated_engine (Some 42) 0))))) =
    [DISPUTED] /\
  List.length (market_snapshots
    (fst (run (add_scenario failing_scenario (populated_engine (Some 42) 0))))) = 1%nat.
Proof.
  destruct (step_error_propagates
     (emit (add_scenario failing_scenario (populated_engine (Some 42) 0)) EvInitializePopulation)
     (fst (step (emit (add_scenario failing_scenario (populated_engine (Some 42) 0))
                   EvInitializePopulation)))
     "ValueError"%string) as (_ & _ & Hrun).
  - vm_compute. reflexivity.
  - rewrite (Hrun (add_scenario failing_scenario (populated_engine (Some 42) 0))).
    + split; [reflexivity|]. vm_compute. split; reflexivity.
    + reflexivity.
    + split; vm_compute; [intro Hc; discriminate|reflexivity].
Defined.

(* ------------------------------------------------------------------ *)
(** ** Reproducibility *)

(** A truthy seed makes the engine independent of the generator state it
    was built in. *)
Lemma seeded_engine_independent cfg s g1 g2 :
  random_seed cfg = Some s -> s <> 0 ->
  SimulationEngine_new cfg g1 = SimulationEngine_new cfg g2.
Proof.
  intros Hs Hz. unfold SimulationEngine_new, seed_truthy. rewrite Hs.
  apply Z.eqb_neq in Hz. rewrite Hz. reflexivity.
Qed.

(** C7 (divergence): [if config.random_seed:] skips the seed 0, so a
    configuration with [random_seed = 0] does not reseed [np.random].  Two
    runs with that same configuration and the same deterministic strategy,
    started from different generator states, return different results (the
    freelancer's final rate and the snapshots differ); with the seed 42 the
    two runs agree. *)
Theorem seed_zero_runs_differ :
  snd (run (drawing_engine (Some 0) 1)) <> snd (run (drawing_engine (Some 0) 2)) /\
  map hourly_rate (values (freelancers (fst (run (drawing_engine (Some 0) 1))))) = [inject_Z 10] /\
  map hourly_rate (values (freelancers (fst (run (drawing_engine (Some 0) 2))))) = [inject_Z 11] /\
  snd (run (drawing_engine (Some 42) 1)) = snd (run (drawing_engine (Some 42) 2)).
Proof.
  split; [|split; [|split]].
  - vm_compute. discriminate.
  - vm_compute. reflexivity.
  - vm_compute. reflexivity.
  - vm_compute. reflexivity.
Qed.

(* ------------------------------------------------------------------ *)
(** ** Further properties of the engine *)

(** After phase 3 no contract is due any more on that day, and running the
    phase again on the same day changes no contract. *)
Theorem process_contracts_settles (e : Engine) :
  let e' := fst (_process_contracts e) in
  Forall (fun kc => completes_on (date_of (current_time e)) (snd kc) = false)
    (contracts e') /\
  contracts (fst (_process_contracts e')) = contracts e'.
Proof.
  cbn zeta. rewrite !phase3_eq. cbn [fst contracts emit set_reach current_time].
  split.
  - apply Forall_map, Forall_forall. intros [k c] _. cbn.
    rewrite process_contract_completes.
    destruct (completes_on _ c) eqn:Hc; [reflexivity|exact Hc].
  - rewrite map_map. apply map_ext. intros [k c]. cbn.
    rewrite !process_contract_completes.
    destruct (completes_on _ c) eqn:Hc; [|rewrite Hc; reflexivity].
    reflexivity.
Qed.

Section Convergence_more.

(** With a threshold of 0 or less the convergence predicate never holds;
    and a predicate that holds for one threshold holds for every larger one
    over the same snapshots. *)
Theorem check_convergence_threshold (e1 e2 : Engine) :
  ((convergence_threshold (config e1) <=? 0.0)%float = true ->
   _check_convergence e1 = false) /\
  (market_snapshots e2 = market_snapshots e1 ->
   (convergence_threshold (config e1) <=? convergence_threshold (config e2))%float = true ->
   _check_convergence e1 = true -> _check_convergence e2 = true).
Proof.
  split.
  - intro Ht. unfold _check_convergence.
    destruct (_ <? 10)%nat; [reflexivity|]. cbv zeta.
    rewrite ltb_spec. apply not_neg_ltb_nonpos.
    + apply np_var_nn.
    + rewrite leb_spec in Ht. exact Ht.
  - intros Hs Ht H. unfold _check_convergence in *. rewrite Hs.
    destruct (_ <? 10)%nat; [discriminate|]. cbv zeta in *.
    rewrite ltb_spec in H |- *. rewrite leb_spec in Ht.
    eapply SFltb_leb_trans; eauto.
Qed.

Lemma check_convergence_threshold_witness :
  _check_convergence (snapshot_engine 0.0 (repeat (example_snapshot 0.5) 10)) = false /\
  _check_convergence (snapshot_engine 0.5 (repeat (example_snapshot 0.5) 10)) = true.
Proof.
  split.
  - destruct (check_convergence_threshold
      (snapshot_engine 0.0 (repeat (example_snapshot 0.5) 10))
      (snapshot_engine 0.0 (repeat (example_snapshot 0.5) 10))) as [H1 _].
    apply H1. vm_compute. reflexivity.
  - destruct (check_convergence_threshold
      (snapshot_engine 0.001 (repeat (example_snapshot 0.5) 10))
      (snapshot_engine 0.5 (repeat (example_snapshot 0.5) 10))) as [_ H2].
    apply H2.
    + reflexivity.
    + vm_compute. reflexivity.
    + vm_compute. reflexivity.
Defined.

(** The predicate looks at the 10 most recent snapshots only: snapshots
    older than those do not change its value. *)
Theorem check_convergence_window (e : Engine) older :
  (10 <= List.length (market_snapshots e))%nat ->
  _check_convergence (set_market_snapshots e (older ++ market_snapshots e)) =
  _check_convergence e.
Proof.
  intro H. unfold _check_convergence. cbn [market_snapshots set_market_snapshots config].
  rewrite length_app.
  assert (H1 : (List.length older + List.length (market_snapshots e) <? 10)%nat = false)
    by (apply Nat.ltb_ge; lia).
  assert (H2 : (List.length (market_snapshots e) <? 10)%nat = false)
    by (apply Nat.ltb_ge; lia).
  rewrite H1, H2. cbv zeta.
  rewrite skipn_app, skipn_all2 by lia. cbn [app].
  replace (List.length older + List.length (market_snapshots e) - 10 - List.length older)%nat
    with (List.length (market_snapshots e) - 10)%nat by lia.
  reflexivity.
Qed.

Lemma check_convergence_window_witness :
  _check_convergence (snapshot_engine 0.001
    (map example_snapshot [0.0; 1.0; 0.0; 1.0]%float ++ repeat (example_snapshot 0.5) 10)) = true.
Proof.
  replace (snapshot_engine 0.001
             (map example_snapshot [0.0; 1.0; 0.0; 1.0]%float ++ repeat (example_snapshot 0.5) 10))
    with (set_market_snapshots
            (snapshot_engine 0.001 (repeat (example_snapshot 0.5) 10))
            (map example_snapshot [0.0; 1.0; 0.0; 1.0]%float ++
             market_snapshots (snapshot_engine 0.001 (repeat (example_snapshot 0.5) 10))))
    by reflexivity.
  rewrite (check_convergence_window
    (snapshot_engine 0.001 (repeat (example_snapshot 0.5) 10))
    (map example_snapshot [0.0; 1.0; 0.0; 1.0]%float)).
  - vm_compute. reflexivity.
  - vm_compute. lia.
Defined.

End Convergence_more.

(** A [for] loop keeps an invariant every iteration keeps, whatever the
    outcome. *)
Lemma for_each_keeps {A} (I : Engine -> Prop) (body : A -> M unit) l :
  (forall a e e' r, I e -> body a e = (e', r) -> I e') ->
  forall e e' r, I e -> for_each l body e = (e', r) -> I e'.
Proof.
  intro Hb. induction l as [|a l IH]; intros e e' r HI H; cbn [for_each] in H.
  - unfold ret in H. injection H as <- _. exact HI.
  - split_bind H; eauto.
Qed.

Lemma write_back_market_state_ends P s ms :
  exists s', write_back_market_state (P ++ [s]) ms = P ++ [s'].
Proof.
  unfold write_back_market_state.
  destruct (P ++ [s]) as [|x l] eqn:Hl; [destruct P; discriminate|].
  destruct ms as [m|]; [|eauto].
  exists m. rewrite <- Hl, removelast_last. reflexivity.
Qed.

Lemma freelancer_call_ends P fb i e e' r :
  ends_after P e -> freelancer_call fb i e = (e', r) -> ends_after P e'.
Proof.
  intros [s Hs]. unfold freelancer_call.
  destruct (nth_error (freelancers e) i) as [[k f]|].
  2:{ intro H. injection H as <- _. exists s. exact Hs. }
  destruct (fb f _ _ _ _) as [[[[f' ms'] cls'] g'] err].
  intro H. apply reraise_inv in H as [-> _]. cbn. rewrite Hs.
  apply write_back_market_state_ends.
Qed.

Lemma client_call_ends P cb i e e' r :
  ends_after P e -> client_call cb i e = (e', r) -> ends_after P e'.
Proof.
  intros [s Hs]. unfold client_call.
  destruct (nth_error (clients e) i) as [[k c]|].
  2:{ intro H. injection H as <- _. exists s. exact Hs. }
  destruct (cb c _ _ _ _) as [[[[c' ms'] fls'] g'] err].
  intro H. apply reraise_inv in H as [-> _]. cbn. rewrite Hs.
  apply write_back_market_state_ends.
Qed.

Lemma phase2_ends P e e' r :
  ends_after P e -> _execute_agent_behaviors e = (e', r) -> ends_after P e'.
Proof.
  intros HP H. unfold _execute_agent_behaviors in H.
  split_bind H; unfold get in Hm; inversion Hm; subst; clear Hm.
  assert (Hf : forall e1 r1,
             (match freelancer_behavior_model a with
              | Some fb => for_each (seq 0 (List.length (freelancers a))) (freelancer_call fb)
              | None => ret tt end) a = (e1, r1) -> ends_after P e1).
  { intros e1 r1 H1. destruct (freelancer_behavior_model a) as [fb|].
    - eapply (for_each_keeps (ends_after P)); [|exact HP|exact H1].
      intros. eapply freelancer_call_ends; eauto.
    - unfold ret in H1. injection H1 as <- _. exact HP. }
  split_bind Hk; [eapply Hf; eauto|].
  apply Hf in Hm. clear Hf.
  split_bind Hk0; unfold get in Hm0; inversion Hm0; subst; clear Hm0.
  destruct (client_behavior_model a1) as [cb|].
  - eapply (for_each_keeps (ends_after P)); [|exact Hm|exact Hk].
    intros. eapply client_call_ends; eauto.
  - unfold ret in Hk. injection Hk as <- _. exact Hm.
Qed.

Lemma step_snapshots_extend e e' r :
  step e = (e', r) ->
  market_snapshots e' = market_snapshots e \/ ends_after (market_snapshots e) e'.
Proof.
  unfold step. intro H.
  split_bind H.
  { left. destruct (phase1_inv _ _ _ Hm) as (_&_&_&[[y [_ [Hs _]]]|[Hr _]]);
      [exact Hs|discriminate]. }
  right. rename e0 into e1, Hm into H1.
  assert (E1 : ends_after (market_snapshots e) e1).
  { destruct (phase1_inv _ _ _ H1) as (_&_&_&[[y [Hy _]]|[_ [em [s Hem]]]]); [discriminate|].
    exists s. tauto. }
  clear H1.
  split_bind Hk; [eapply phase2_ends; eauto|].
  apply (phase2_ends _ _ _ _ E1) in Hm. clear E1.
  split_bind Hk0; [rewrite phase3_eq in Hm0; discriminate|].
  rewrite phase3_eq in Hm0. injection Hm0 as <- _.
  assert (E3 : ends_after (market_snapshots e) (emit (set_reach e0 (freelancers e0)
             (clients e0) (map (fun kc => (fst kc, process_contract (date_of (current_time e0)) (snd kc)))
             (contracts e0)) (rng e0)) EvProcessContracts)) by exact Hm.
  clear Hm.
  split_bind Hk.
  { rewrite phase4_eq in Hm. apply apply_scenarios_from_inv in Hm as [(_&_&_&Hs) _].
    unfold ends_after. rewrite Hs. exact E3. }
  rewrite phase4_eq in Hm. apply apply_scenarios_from_inv in Hm as [(_&_&_&Hs4) _].
  split_bind Hk0.
  { apply phase5_inv in Hm as (_&_&_&_&_&Hs5&_). unfold ends_after.
    rewrite Hs5, Hs4. exact E3. }
  apply phase5_inv in Hm as (_&_&_&_&_&Hs5&_).
  match type of Hk with advance_time ?x = _ =>
    destruct (phase6_cases x) as [H6|[_ H6]] end;
    rewrite H6 in Hk; injection Hk as <- _;
    unfold ends_after; cbn; rewrite Hs5, Hs4; exact E3.
Qed.

(** The snapshot history only grows: a step, whatever its outcome and
    whatever its strategies do with the snapshot they are given, leaves the
    snapshots taken before it unchanged and adds at most one; a run, even one
    that raises, leaves the snapshots it started with unchanged at the front
    of the list. *)
Theorem snapshot_history_append_only :
  (forall e e' r, step e = (e', r) ->
     exists suffix, market_snapshots e' = market_snapshots e ++ suffix /\
       (List.length suffix <= 1)%nat) /\
  (forall e e' r, run e = (e', r) ->
     exists suffix, market_snapshots e' = market_snapshots e ++ suffix).
Proof.
  assert (Hstep : forall e e' r, step e = (e', r) ->
     exists suffix, market_snapshots e' = market_snapshots e ++ suffix /\
       (List.length suffix <= 1)%nat).
  { intros e e' r H. destruct (step_snapshots_extend _ _ _ H) as [Hs|[s Hs]].
    - exists []. rewrite app_nil_r. auto.
    - exists [s]. auto. }
  split; [exact Hstep|].
  intros e e' r H. unfold run in H.
  set (R := fun a b : Engine => exists suffix, market_snapshots b = market_snapshots a ++ suffix).
  assert (Rrefl : forall a, R a a) by (intro a; exists []; rewrite app_nil_r; reflexivity).
  assert (Rtrans : forall a b c, R a b -> R b c -> R a c).
  { intros a b c [s1 H1] [s2 H2]. exists (s1 ++ s2). rewrite H2, H1, app_assoc. reflexivity. }
  assert (Hloop : forall fuel it e0 e1 r1, run_loop fuel it e0 = (e1, r1) -> R e0 e1).
  { intros fuel it e0 e1 r1 H1.
    refine (proj2 (run_loop_rel (fun _ => True) R Rrefl Rtrans _ fuel it e0 e1 r1 I H1)).
    intros a b r2 _ H2. split; auto. destruct (Hstep _ _ _ H2) as [sfx [Hs _]].
    exists sfx. exact Hs. }
  change (R e e').
  split_bind H; unfold initialize_population, modify in Hm; inversion Hm; subst; clear Hm.
  split_bind Hk; unfold get in Hm; inversion Hm; subst; clear Hm.
  split_bind Hk0.
  - apply Hloop in Hm. exact Hm.
  - apply Hloop in Hm.
    unfold bind, get, ret, lift_exn in Hk.
    destruct (_generate_results _); injection Hk as <- _; exact Hm.
Qed.

Lemma run_loop_exit fuel it e e' n :
  max_iterations (config e) <= Z.of_nat fuel + it ->
  run_loop fuel it e = (e', inr n) ->
  it <= n /\ n <= Z.max it (max_iterations (config e)) /\ config e' = config e /\
  Z.of_nat (List.length (market_snapshots e')) =
    Z.of_nat (List.length (market_snapshots e)) + (n - it) /\
  current_time e' = current_time e + (n - it) * time_step (config e) /\
  (cfg_end_date (config e) < current_time e' \/ max_iterations (config e) <= n \/
   (it < n /\ _check_convergence e' = true)).
Proof.
  revert it e. induction fuel as [|fuel IH]; intros it e Hf H; cbn [run_loop] in H.
  - unfold ret in H. inversion H; subst. repeat split; try lia.
    all: right; left; lia.
  - split_bind H; unfold get in Hm; inversion Hm; subst; clear Hm.
    destruct (_ && _) eqn:Hg.
    + apply andb_true_iff in Hg as [Hg1 Hg2].
      apply Z.leb_le in Hg1. apply Z.ltb_lt in Hg2.
      split_bind Hk; [discriminate|]. destruct a0.
      destruct (step_inv _ _ _ Hm) as (Hc&_&_&_&_&_&Hok).
      destruct (Hok eq_refl) as (e2&_&_&Ht&Hl). clear Hok.
      split_bind Hk0; unfold get in Hm0; inversion Hm0; subst; clear Hm0.
      match type of Hk with context [ if _check_convergence ?x then _ else _ ] =>
        destruct (_check_convergence x) eqn:Hconv end.
      * unfold ret in Hk. injection Hk as <- <-.
        repeat split; try lia; try congruence.
        all: right; right; split; [lia|exact Hconv].
      * rewrite <- Hc in Hf.
        assert (Hf' : max_iterations (config a0) <= Z.of_nat fuel + (it + 1)) by lia.
        destruct (IH _ _ Hf' Hk) as (H1&H2&H3&H4&H5&H6).
        rewrite Hc in H2, H3, H5, H6.
        repeat split; try lia; try congruence.
        all: try (rewrite ?H4, ?H5, ?Hl, ?Ht; lia).
        all: destruct H6 as [?|[?|[? ?]]]; auto; right; right; split; [lia|auto].
    + unfold ret in Hk. inversion Hk; subst; clear Hk.
      apply andb_false_iff in Hg as [Hg|Hg];
        [apply Z.leb_gt in Hg|apply Z.ltb_ge in Hg];
        repeat split; try lia; auto.
Qed.

(** What a successful [run] reports: the iteration count [n] lies between 0
    and [max(0, max_iterations)]; the results count the snapshots taken
    before the run plus one per iteration, end [n] time steps after the
    engine's time, carry the engine's configuration, and the loop stopped
    because the time passed [end_date], [n] reached [max_iterations], or the
    snapshots converged after at least one step. *)
Theorem run_outcome e e' res n :
  run e = (e', inr (res, n)) ->
  0 <= n <= Z.max 0 (max_iterations (config e)) /\
  Z.of_nat (r_total_steps res) = Z.of_nat (List.length (market_snapshots e)) + n /\
  r_end_time res = current_time e + n * time_step (config e) /\
  r_config res = config e /\
  (cfg_end_date (config e) < r_end_time res \/ max_iterations (config e) <= n \/
   (0 < n /\ _check_convergence e' = true)).
Proof.
  unfold run. intro H.
  split_bind H; unfold initialize_population, modify in Hm; inversion Hm; subst; clear Hm.
  split_bind Hk; unfold get in Hm; inversion Hm; subst; clear Hm.
  split_bind Hk0; [discriminate|].
  unfold bind, get, ret, lift_exn in Hk.
  destruct (_generate_results _) as [y|res0] eqn:Hgen; [discriminate|].
  inversion Hk; subst; clear Hk.
  assert (Hf : max_iterations (config (emit e EvInitializePopulation)) <=
               Z.of_nat (Z.to_nat (max_iterations (config (emit e EvInitializePopulation)))) + 0)
    by lia.
  destruct (run_loop_exit _ _ _ _ _ Hf Hm) as (H1&H2&H3&H4&H5&H6).
  cbn [emit config current_time market_snapshots] in *.
  unfold _generate_results in Hgen.
  destruct (get_summary _); [discriminate|]. destruct (scenario_results _); [discriminate|].
  injection Hgen as <-. cbn [r_total_steps r_end_time r_config].
  rewrite H3 in *. repeat split; try lia; auto.
  all: destruct H6 as [?|[?|[? ?]]]; auto; right; right; split; [lia|auto].
Qed.

Lemma run_outcome_witness :
  exists res, snd (run full_engine) = inr (res, 10) /\ r_total_steps res = 10%nat.
Proof.
  destruct (run full_engine) as [e' [x|[res n]]] eqn:Hr; [vm_compute in Hr; discriminate|].
  pose proof (f_equal (fun p : Engine * (Exn + (Results * Z)) =>
                         match snd p with inr (_, k) => k | inl _ => 0 end) Hr) as Hn.
  vm_compute in Hn. subst n.
  destruct (run_outcome _ _ _ _ Hr) as (_&Hs&_).
  assert (Hl : List.length (market_snapshots full_engine) = 0%nat) by (vm_compute; reflexivity).
  rewrite Hl in Hs. exists res. split; [reflexivity|]. lia.
Defined.

(** X8: when the loop guard fails from the start ([end_date] already passed
    or [max_iterations <= 0]), [run] takes no step: the engine is left as it
    was apart from the population hook, and [run] returns what
    [_generate_results] gives for the engine as it stands, with iteration
    count 0, or the exception [_generate_results] raises. *)
Theorem run_no_iterations e :
  cfg_end_date (config e) < current_time e \/ max_iterations (config e) <= 0 ->
  run e = (emit e EvInitializePopulation,
           match _generate_results (emit e EvInitializePopulation) with
           | inl x => inl x
           | inr res => inr (res, 0)
           end).
Proof.
  intro H. unfold run, initialize_population, modify, bind, get, ret, lift_exn.
  cbn [emit config current_time].
  destruct (Z.to_nat (max_iterations (config e))) eqn:Hn.
  - cbn [run_loop]. unfold ret.
    destruct (_generate_results _); reflexivity.
  - cbn [run_loop]. unfold bind, get, ret. cbn [emit config current_time].
    replace ((current_time e <=? cfg_end_date (config e)) && (0 <? max_iterations (config e)))
      with false.
    + destruct (_generate_results _); reflexivity.
    + symmetry. apply andb_false_iff.
      destruct H as [H|H]; [left; apply Z.leb_gt|right; apply Z.ltb_ge]; lia.
Qed.

Lemma run_no_iterations_witness :
  run (set_current_time (snapshot_engine 0.0 [example_snapshot 1.0]) (mk_datetime 2024 2 1)) =
    (emit (set_current_time (snapshot_engine 0.0 [example_snapshot 1.0]) (mk_datetime 2024 2 1))
       EvInitializePopulation,
     match _generate_results (emit (set_current_time (snapshot_engine 0.0 [example_snapshot 1.0])
                                      (mk_datetime 2024 2 1)) EvInitializePopulation) with
     | inl x => inl x
     | inr res => inr (res, 0)
     end).
Proof.
  apply run_no_iterations. left. vm_compute. reflexivity.
Defined.

(** The id defaulting of [Freelancer], [Client] and [Transaction]: with a
    non-empty drawn id [fresh], every entity leaves [__post_init__] with a
    non-empty id; an entity that already has an id is left exactly as it
    is; so running [__post_init__] a second time, whatever id it would
    draw, changes nothing. *)
Theorem post_init_ids fresh fresh' :
  fresh <> ""%string ->
  (forall f, f_id (Freelancer___post_init__ fresh f) <> ""%string /\
     (f_id f <> ""%string -> Freelancer___post_init__ fresh f = f) /\
     Freelancer___post_init__ fresh' (Freelancer___post_init__ fresh f) =
       Freelancer___post_init__ fresh f) /\
  (forall c, c_id (Client___post_init__ fresh c) <> ""%string /\
     (c_id c <> ""%string -> Client___post_init__ fresh c = c) /\
     Client___post_init__ fresh' (Client___post_init__ fresh c) =
       Client___post_init__ fresh c) /\
  (forall t, t_id (Transaction___post_init__ fresh t) <> ""%string /\
     (t_id t <> ""%string -> Transaction___post_init__ fresh t = t) /\
     Transaction___post_init__ fresh' (Transaction___post_init__ fresh t) =
       Transaction___post_init__ fresh t).
Proof.
  intro Hf. assert (Hf' := proj2 (String.eqb_neq fresh ""%string) Hf).
  refine (conj _ (conj _ _)).
  1: unfold Freelancer___post_init__. 2: unfold Client___post_init__.
  3: unfold Transaction___post_init__.
  all: intro x; match goal with |- context [String.eqb (?p ?y) ""%string] =>
         is_var y; destruct (String.eqb_spec (p y) ""%string) as [H|H] end;
       cbn; (split; [|split]).
  all: try rewrite Hf'; try (apply String.eqb_neq in H as H'; rewrite H');
    auto; intro; contradiction.
Qed.

Lemma post_init_ids_witness :
  f_id (Freelancer___post_init__ "u1" (example_freelancer "" 60)) <> ""%string.
Proof.
  destruct (post_init_ids "u1" "u2") as [Hfr _].
  - discriminate.
  - apply Hfr.
Defined.

(** [Contract.__post_init__]: with a non-empty drawn id the contract gets a
    non-empty id, a given id is kept, every list left to its default ends up
    empty and every list given is kept; a second run with the lists now
    given changes nothing. *)
Theorem contract_post_init fresh fresh' c d m r :
  fresh <> ""%string ->
  let c' := Contract___post_init__ fresh c d m r in
  k_id c' <> ""%string /\
  (k_id c <> ""%string -> k_id c' = k_id c) /\
  deliverables c' = match d with None => [] | Some l => l end /\
  milestones c' = match m with None => [] | Some l => l end /\
  compliance_requirements c' = match r with None => [] | Some l => l end /\
  Contract___post_init__ fresh' c' (Some (deliverables c')) (Some (milestones c'))
    (Some (compliance_requirements c')) = c'.
Proof.
  intros Hf c'. subst c'. unfold Contract___post_init__. cbn.
  destruct (String.eqb_spec (k_id c) ""%string) as [H|H]; cbn.
  - apply String.eqb_neq in Hf as Hf'. rewrite Hf'.
    repeat split; auto. intro; contradiction.
  - apply String.eqb_neq in H as H'. rewrite H'. repeat split; auto.
Qed.

Lemma contract_post_init_witness :
  deliverables (Contract___post_init__ "u1"
    (example_contract "" (mk_datetime 2024 1 5) C_COMPLIANT) None None None) = [].
Proof.
  destruct (contract_post_init "u1" "u2"
    (example_contract "" (mk_datetime 2024 1 5) C_COMPLIANT) None None None)
    as (_&_&Hd&_).
  - discriminate.
  - exact Hd.
Defined.

Lemma apply_scenarios_from_app scs1 scs2 i e :
  apply_scenarios_from i (scs1 ++ scs2) e =
  (apply_scenarios_from i scs1 ;; apply_scenarios_from (i + List.length scs1) scs2) e.
Proof.
  revert i e. induction scs1 as [|sc scs1 IH]; intros i e; cbn [app apply_scenarios_from].
  - unfold bind, ret. rewrite Nat.add_0_r. reflexivity.
  - unfold bind at 1 2 3. destruct (scenario_call i sc e) as [e1 [x|[]]]; [reflexivity|].
    rewrite IH. cbn [List.length]. rewrite Nat.add_succ_r. reflexivity.
Qed.

(** Scenarios run in registration order: after [add_scenario sc], phase 4
    first applies every scenario registered before, exactly as it did
    without [sc], and only then, unless one of them raised, checks and
    applies [sc]. *)
Theorem add_scenario_runs_last sc e :
  _apply_regulatory_scenarios (add_scenario sc e) =
  (apply_scenarios_from 0 (scenarios e) ;;
   scenario_call (List.length (scenarios e)) sc) (add_scenario sc e).
Proof.
  rewrite phase4_eq. unfold add_scenario at 1. cbn [scenarios set_strategies].
  rewrite apply_scenarios_from_app. cbn [Nat.add apply_scenarios_from].
  unfold bind. destruct (apply_scenarios_from 0 (scenarios e) _) as [e1 [x|[]]];
    [reflexivity|].
  destruct (scenario_call _ sc e1) as [e2 [y|[]]]; reflexivity.
Qed.

(** Phase 4 on scenarios none of which is active at the current time (and
    none of whose [is_active] raises) leaves the engine exactly as it is, its
    call trace included. *)
Theorem phase4_inactive e :
  Forall (fun sc => is_active sc (current_time e) = (false, None)) (scenarios e) ->
  _apply_regulatory_scenarios e = (e, inr tt).
Proof.
  rewrite phase4_eq. generalize 0%nat. induction (scenarios e) as [|sc scs IH];
    intros i H; cbn [apply_scenarios_from].
  - reflexivity.
  - inversion H as [|? ? Hsc Hscs]; subst.
    unfold bind at 1. unfold scenario_call. rewrite Hsc. apply IH. exact Hscs.
Qed.

Lemma phase4_inactive_witness :
  _apply_regulatory_scenarios (add_scenario (constant_scenario false) (populated_engine None 7)) =
  (add_scenario (constant_scenario false) (populated_engine None 7), inr tt).
Proof.
  apply phase4_inactive. repeat constructor.
Defined.

Lemma step_keeps_transactions e e' r :
  step e = (e', r) ->
  config e' = config e /\ transactions e' = transactions e /\
  current_time e' = current_time e +
    match r with inr _ => time_step (config e) | inl _ => 0 end.
Proof.
  unfold step. intro H.
  split_bind H.
  { destruct (phase1_inv _ _ _ Hm) as ((C&T&_)&Tr&_). subst r; rewrite Z.add_0_r. auto. }
  destruct (phase1_inv _ _ _ Hm) as ((C1&T1&_)&Tr1&_). clear Hm.
  split_bind Hk.
  { destruct (phase2_inv _ _ _ Hm) as [((C&T&_)&Tr&_) _].
    subst r; rewrite Z.add_0_r. repeat split; congruence. }
  destruct (phase2_inv _ _ _ Hm) as [((C2&T2&_)&Tr2&_) _]. clear Hm.
  split_bind Hk0; rewrite phase3_eq in Hm; inversion Hm; subst; clear Hm.
  split_bind Hk.
  { rewrite phase4_eq in Hm. apply apply_scenarios_from_inv in Hm as [((C&T&_)&Tr&_) _].
    cbn in C, T, Tr. subst r; rewrite Z.add_0_r. repeat split; congruence. }
  rewrite phase4_eq in Hm. apply apply_scenarios_from_inv in Hm as [((C4&T4&_)&Tr4&_) _].
  cbn in C4, T4, Tr4.
  split_bind Hk0.
  { apply phase5_inv in Hm as ((C&T&_)&_&_&_&Tr&_).
    subst r; rewrite Z.add_0_r. repeat split; congruence. }
  apply phase5_inv in Hm as ((C5&T5&_)&_&_&_&Tr5&_).
  match type of Hk with advance_time ?x = _ =>
    destruct (phase6_cases x) as [H6|[_ H6]] end;
    rewrite H6 in Hk; injection Hk as <- <-; cbn; [rewrite Z.add_0_r|];
    repeat split; congruence.
Qed.

(** The engine never records, drops or rewrites a transaction, and never
    changes its configuration: a step or a run leaves both as they were,
    whatever the strategies do and even when a step raises.  Time moves only
    by a completed step, by exactly one [time_step]; a step that raises
    leaves the clock where it was. *)
Theorem transactions_config_frozen :
  (forall e e' r, step e = (e', r) ->
     config e' = config e /\ transactions e' = transactions e /\
     current_time e' = current_time e +
       match r with inr _ => time_step (config e) | inl _ => 0 end) /\
  (forall e e' r, run e = (e', r) ->
     config e' = config e /\ transactions e' = transactions e).
Proof.
  split; [exact step_keeps_transactions|].
  intros e e' r H. unfold run in H.
  set (R := fun a b : Engine => config b = config a /\ transactions b = transactions a).
  change (R e e').
  assert (Hloop : forall fuel it e0 e1 r1, run_loop fuel it e0 = (e1, r1) -> R e0 e1).
  { intros fuel it e0 e1 r1 H1.
    refine (proj2 (run_loop_rel (fun _ => True) R _ _ _ fuel it e0 e1 r1 I H1)).
    - intro a. split; reflexivity.
    - intros a b c [Hab Tab] [Hbc Tbc]. split; congruence.
    - intros a b r2 _ H2. destruct (step_keeps_transactions _ _ _ H2) as (Hc&Ht&_).
      split; [exact I|split; assumption]. }
  split_bind H; unfold initialize_population, modify in Hm; inversion Hm; subst; clear Hm.
  split_bind Hk; unfold get in Hm; inversion Hm; subst; clear Hm.
  split_bind Hk0.
  - apply Hloop in Hm. exact Hm.
  - apply Hloop in Hm.
    unfold bind, get, ret, lift_exn in Hk.
    destruct (_generate_results _); injection Hk as <- _; exact Hm.
Qed.

(** What the behaviour phase can and cannot change: whether the behaviour
    models return or raise, phase 2 keeps the same freelancer and client ids
    in the same order, the same contracts, transactions, metrics, time,
    configuration and strategies, and the same number of snapshots; the
    models reach only the freelancer and client objects, the latest snapshot
    and the generator.  With neither behaviour model installed the phase
    does nothing at all. *)
Theorem behaviors_phase_frame e e' r :
  _execute_agent_behaviors e = (e', r) ->
  map fst (freelancers e') = map fst (freelancers e) /\
  map fst (clients e') = map fst (clients e) /\
  contracts e' = contracts e /\ transactions e' = transactions e /\
  metrics_collector e' = metrics_collector e /\
  current_time e' = current_time e /\ config e' = config e /\
  scenarios e' = scenarios e /\
  List.length (market_snapshots e') = List.length (market_snapshots e) /\
  (freelancer_behavior_model e = None -> client_behavior_model e = None ->
   e' = e /\ r = inr tt).
Proof.
  intro H.
  assert (Hnone : freelancer_behavior_model e = None -> client_behavior_model e = None ->
                  e' = e /\ r = inr tt).
  { intros Hf Hc. unfold _execute_agent_behaviors, bind, get in H.
    rewrite Hf in H. unfold ret in H. cbn beta iota in H.
    rewrite Hc in H. inversion H. auto. }
  destruct (phase2_inv _ _ _ H) as [((C&T&S&_)&Tr&K&Mc&Fk&Ck&L) _].
  repeat split; auto.
  all: edestruct Hnone; eauto.
Qed.

Lemma behaviors_phase_frame_witness :
  contracts (fst (_execute_agent_behaviors (drawing_engine None 7))) =
  contracts (drawing_engine None 7).
Proof.
  destruct (behaviors_phase_frame (drawing_engine None 7)
              (fst (_execute_agent_behaviors (drawing_engine None 7)))
              (snd (_execute_agent_behaviors (drawing_engine None 7))))
    as (_&_&Hk&_).
  - vm_compute. reflexivity.
  - exact Hk.
Defined.
